(** * SpanishLearning: backend/services/language_service.py

    A shallow embedding of the language service of the application and the
    properties its specification states about it.

    The service is glue code around external collaborators (an HTTP client,
    a speech recogniser, a speech synthesiser, audio players, the file
    system, the Unicode database and the thread library).  The functions of
    the service are embedded as they are written; every call that leaves
    the service is represented by its outcome, either a value or a raised
    exception, which the embedded function receives from an environment
    record.  Printed diagnostics are kept as a list of structured events. *)

From Stdlib Require Import NArith ZArith String Ascii List Bool Lia DecimalString.
From Stdlib Require DecimalZ DecimalPos.
From stdpp Require Import base decidable list gmap.
Import ListNotations.


(** * Part I: the embedding *)

(** ** Python strings *)

(** A Python [str] is a sequence of Unicode code points. *)
Abbreviation codepoint := N (only parsing).
Abbreviation pystr := (list N) (only parsing).

(** ASCII literals: [u "abc"] is the Python string ["abc"]. *)
Definition u (s : string) : pystr :=
  List.map N_of_ascii (list_ascii_of_string s).

(** [str(n)] for an integer [n] *)
Definition decimal (z : Z) : pystr :=
  u (NilZero.string_of_int (Z.to_int z)).

(** [s.startswith(p)] *)
Fixpoint startswith (p s : pystr) : bool :=
  match p, s with
  | [], _ => true
  | _ :: _, [] => false
  | a :: p', b :: s' => N.eqb a b && startswith p' s'
  end.

(** [p in s] for two strings: [p] occurs in [s] *)
Fixpoint occurs_in (p s : pystr) : bool :=
  startswith p s ||
  match s with
  | [] => false
  | _ :: s' => occurs_in p s'
  end.

(** [sep.join(parts)] *)
Fixpoint join (sep : pystr) (parts : list pystr) : pystr :=
  match parts with
  | [] => []
  | [p] => p
  | p :: rest => p ++ sep ++ join sep rest
  end.

(** [bool(s)]: a string is true when it is not empty *)
Definition str_truth (s : pystr) : bool :=
  match s with [] => false | _ :: _ => true end.

(** [repr(s)] of a string without quotes, backslashes or unprintable
    characters, which is what the two dictionary keys of the service are. *)
Definition repr_plain (s : pystr) : pystr := u "'" ++ s ++ u "'".

(** ** Exceptions *)

(** The exception classes that the service names in a handler, or that
    the calls it makes raise. *)
Inductive exc_class :=
| BaseException | KeyboardInterrupt | SystemExit | Exception
| TypeError | LookupError | KeyError | IndexError
| ValueError | json_JSONDecodeError
| OSError | AssertionError | ImportError | RuntimeError
| RequestException | requests_HTTPError | requests_ConnectionError
| requests_Timeout | requests_InvalidJSONError | requests_JSONDecodeError
| sr_WaitTimeoutError | sr_UnknownValueError | sr_RequestError
| gTTSError | pygame_error | PlaysoundException.

#[global] Instance exc_class_eq_dec : EqDecision exc_class.
Proof. solve_decision. Defined.

(** The direct base classes, as the libraries declare them. *)
Definition bases (c : exc_class) : list exc_class :=
  match c with
  | BaseException => []
  | KeyboardInterrupt | SystemExit | Exception => [BaseException]
  | TypeError | LookupError | ValueError | OSError
  | AssertionError | ImportError | RuntimeError => [Exception]
  | KeyError | IndexError => [LookupError]
  | json_JSONDecodeError => [ValueError]
  | RequestException => [OSError]
  | requests_HTTPError | requests_ConnectionError
  | requests_Timeout | requests_InvalidJSONError => [RequestException]
  | requests_JSONDecodeError =>
      [requests_InvalidJSONError; json_JSONDecodeError]
  | sr_WaitTimeoutError | sr_UnknownValueError | sr_RequestError
  | gTTSError | PlaysoundException => [Exception]
  | pygame_error => [RuntimeError]
  end.

Fixpoint issubclass_depth (n : nat) (c d : exc_class) : bool :=
  bool_decide (c = d) ||
  match n with
  | O => false
  | S n' => existsb (fun b => issubclass_depth n' b d) (bases c)
  end.

(** [issubclass(c, d)]; no class above is more than five steps below
    [BaseException]. *)
Definition issubclass (c d : exc_class) : bool := issubclass_depth 5 c d.

(** A raised exception: its class and [str(e)]. *)
Record exn := { exc_type : exc_class; exc_str : pystr }.

(** [isinstance(e, d)] *)
Definition isinstance (e : exn) (d : exc_class) : bool :=
  issubclass (exc_type e) d.

(** The result of a call: a value, or a raised exception. *)
Inductive outcome (A : Type) :=
| Returns (a : A)
| Raises (e : exn).
Arguments Returns {A} a.
Arguments Raises {A} e.

(** ** Python objects decoded from JSON *)

#[warnings="-register-all"]
Inductive pyval :=
| PyNone
| PyBool (b : bool)
| PyInt (z : Z)
| PyFloat (mantissa exponent : Z)
| PyStr (s : pystr)
| PyList (l : list pyval)
| PyDict (d : list (pystr * pyval)).

(** A subscript: a string key or an integer index. *)
Inductive subscript :=
| Key (k : pystr)
| Index (i : Z).

Definition type_name (o : pyval) : pystr :=
  match o with
  | PyNone => u "NoneType"
  | PyBool _ => u "bool"
  | PyInt _ => u "int"
  | PyFloat _ _ => u "float"
  | PyStr _ => u "str"
  | PyList _ => u "list"
  | PyDict _ => u "dict"
  end.

Definition pystr_eqb (a b : pystr) : bool := bool_decide (a = b).

(** Lookup of a key in a dictionary (keys are unique in a [dict]; the
    first binding of the list is the one the dictionary holds). *)
Fixpoint dict_get (k : pystr) (d : list (pystr * pyval)) : option pyval :=
  match d with
  | [] => None
  | (k', v) :: d' => if pystr_eqb k k' then Some v else dict_get k d'
  end.

(** ['key' == o] *)
Definition eq_str (k : pystr) (o : pyval) : bool :=
  match o with
  | PyStr s => pystr_eqb k s
  | _ => false
  end.

(** [key in o]; the messages of the type errors here and below are those
    of CPython 3.12. *)
Definition py_contains (k : pystr) (o : pyval) : outcome bool :=
  match o with
  | PyDict d => Returns (match dict_get k d with Some _ => true | None => false end)
  | PyList l => Returns (existsb (eq_str k) l)
  | PyStr s => Returns (occurs_in k s)
  | _ => Raises {| exc_type := TypeError;
                   exc_str := u "argument of type '" ++ type_name o
                              ++ u "' is not iterable" |}
  end.

(** [len(o)] *)
Definition py_len (o : pyval) : outcome Z :=
  match o with
  | PyDict d => Returns (Z.of_nat (length d))
  | PyList l => Returns (Z.of_nat (length l))
  | PyStr s => Returns (Z.of_nat (length s))
  | _ => Raises {| exc_type := TypeError;
                   exc_str := u "object of type '" ++ type_name o
                              ++ u "' has no len()" |}
  end.

(** The position a sequence of length [n] is read at for index [i]:
    negative indices count from the end. *)
Definition seq_position (n : nat) (i : Z) : option nat :=
  let j := if (i <? 0)%Z then (i + Z.of_nat n)%Z else i in
  if (0 <=? j)%Z && (j <? Z.of_nat n)%Z then Some (Z.to_nat j) else None.

(** [o[k]] *)
Definition py_getitem (o : pyval) (k : subscript) : outcome pyval :=
  match o, k with
  | PyDict d, Key s =>
      match dict_get s d with
      | Some v => Returns v
      | None => Raises {| exc_type := KeyError; exc_str := repr_plain s |}
      end
  | PyDict d, Index i =>
      (* the keys of a decoded JSON object are strings *)
      Raises {| exc_type := KeyError; exc_str := decimal i |}
  | PyList l, Index i =>
      match seq_position (length l) i with
      | Some j =>
          match nth_error l j with
          | Some v => Returns v
          | None => Raises {| exc_type := IndexError;
                              exc_str := u "list index out of range" |}
          end
      | None => Raises {| exc_type := IndexError;
                          exc_str := u "list index out of range" |}
      end
  | PyList l, Key _ =>
      Raises {| exc_type := TypeError;
                exc_str := u "list indices must be integers or slices, not str" |}
  | PyStr s, Index i =>
      match seq_position (length s) i with
      | Some j =>
          match nth_error s j with
          | Some c => Returns (PyStr [c])
          | None => Raises {| exc_type := IndexError;
                              exc_str := u "string index out of range" |}
          end
      | None => Raises {| exc_type := IndexError;
                          exc_str := u "string index out of range" |}
      end
  | PyStr s, Key _ =>
      Raises {| exc_type := TypeError;
                exc_str := u "string indices must be integers, not 'str'" |}
  | _, _ =>
      Raises {| exc_type := TypeError;
                exc_str := u "'" ++ type_name o
                           ++ u "' object is not subscriptable" |}
  end.

(** ** Effects: printed diagnostics, the file system, exceptions *)

(** The lines the service prints, with the values it formats into them. *)
Inductive message :=
| Msg_ApiKeyNotConfigured
| Msg_UnexpectedFormat (data : pyval)
| Msg_ApiRequestError (e : exn)
| Msg_GeneralError (e : exn)
| Msg_Listening (language : pystr)
| Msg_Processing
| Msg_NoSpeech
| Msg_Recognized (user_text : pystr)
| Msg_NotUnderstood
| Msg_RecognitionError (e : exn)
| Msg_Speaking (language shown : pystr) (ellipsis : bool)
| Msg_PygameError (e : exn)
| Msg_PlaybackError (e : exn)
| Msg_AudioError (e : exn)
| Msg_RemoveError (e : exn).

(** What the service does to the world around it, in the order it happens. *)
Inductive event :=
| Print (m : message)
| MicrophoneOpened
| MicrophoneClosed
| Sleep (milliseconds : Z)
| SaveCalled (path : pystr)
| Command (cmd : pystr)
| MixerPlay (path : pystr)
| Playsound (path : pystr)
| RemoveCalled (path : pystr).

Record world := {
  trace : list event;
  files : gset (list N)
}.

(** A computation of the service: it changes the world, and returns a value
    or raises.  What was done before an exception stays done. *)
Definition M (A : Type) : Type := world -> outcome A * world.

Definition ret {A} (a : A) : M A := fun w => (Returns a, w).

Definition raise {A} (e : exn) : M A := fun w => (Raises e, w).

Definition bind {A B} (m : M A) (k : A -> M B) : M B :=
  fun w =>
    match m w with
    | (Returns a, w') => k a w'
    | (Raises e, w') => (Raises e, w')
    end.

Notation "'let*' x ':=' m 'in' k" := (bind m (fun x => k))
  (at level 10, x name, m at level 100, k at level 200).

(** A call into a library whose outcome the environment decides. *)
Definition call {A} (o : outcome A) : M A := fun w => (o, w).

Definition emit (ev : event) : M unit :=
  fun w => (Returns tt, {| trace := trace w ++ [ev]; files := files w |}).

Definition print (m : message) : M unit := emit (Print m).

(** [time.sleep(seconds)] *)
Definition sleep (milliseconds : Z) : M unit := emit (Sleep milliseconds).

(** The first [except] clause whose class the exception is an instance of. *)
Fixpoint find_handler {A} (e : exn) (hs : list (exc_class * (exn -> M A)))
  : option (exn -> M A) :=
  match hs with
  | [] => None
  | (c, h) :: hs' => if isinstance e c then Some h else find_handler e hs'
  end.

(** [try: body except c1 as e: h1 except c2 as e: h2 ...] *)
Definition try_except {A} (body : M A) (hs : list (exc_class * (exn -> M A)))
  : M A :=
  fun w =>
    match body w with
    | (Returns a, w') => (Returns a, w')
    | (Raises e, w') =>
        match find_handler e hs with
        | Some h => h e w'
        | None => (Raises e, w')
        end
    end.

(** [try: body finally: fin]; an exception of [fin] replaces the outcome
    of [body]. *)
Definition try_finally {A} (body : M A) (fin : M unit) : M A :=
  fun w =>
    match body w with
    | (r, w') =>
        match fin w' with
        | (Returns _, w'') => (r, w'')
        | (Raises e, w'') => (Raises e, w'')
        end
    end.

(** ** Translation *)

Definition API_KEY : pystr := u "86dd78dd-1b69-451c-a701-773312d7bfc8:fx".
Definition API_URL : pystr := u "https://api-free.deepl.com/v2/translate".

(** What [requests.post] hands back: the status line, and what
    [response.json()] gives for the body. *)
Record response := {
  status_code : Z;
  reason : pystr;
  url : pystr;
  json : outcome pyval
}.

(** [response.raise_for_status()] of the requests library: an [HTTPError]
    for a client or server error status. *)
Definition raise_for_status (r : response) : outcome unit :=
  if (400 <=? status_code r)%Z && (status_code r <? 500)%Z then
    Raises {| exc_type := requests_HTTPError;
              exc_str := decimal (status_code r) ++ u " Client Error: "
                         ++ reason r ++ u " for url: " ++ url r |}
  else if (500 <=? status_code r)%Z && (status_code r <? 600)%Z then
    Raises {| exc_type := requests_HTTPError;
              exc_str := decimal (status_code r) ++ u " Server Error: "
                         ++ reason r ++ u " for url: " ++ url r |}
  else Returns tt.

(** The network: the outcome of [requests.post(url, data=..., timeout=...)]. *)
Definition http_client : Type :=
  pystr -> list (pystr * pystr) -> Z -> outcome response.

Definition translate_text (requests_post : http_client)
  (text target_language : pystr) : M pyval :=
  let api_key := API_KEY in
  if negb (str_truth api_key) then
    let* _ := print Msg_ApiKeyNotConfigured in
    ret (PyStr (u "[Translation Error: API key not configured.]"))
  else
    let params := [(u "auth_key", api_key);
                   (u "text", text);
                   (u "target_lang", target_language)] in
    try_except
      (let* response := call (requests_post API_URL params 10%Z) in
       let* _ := call (raise_for_status response) in
       let* data := call (json response) in
       let* present := call (py_contains (u "translations") data) in
       let* nonempty :=
         (if present : bool then
            let* candidates := call (py_getitem data (Key (u "translations"))) in
            let* n := call (py_len candidates) in
            ret (0 <? n)%Z
          else ret false) in
       if nonempty : bool then
         let* candidates := call (py_getitem data (Key (u "translations"))) in
         let* first := call (py_getitem candidates (Index 0)) in
         call (py_getitem first (Key (u "text")))
       else
         let* _ := print (Msg_UnexpectedFormat data) in
         ret (PyStr (u "[Translation Error: Unexpected API response format]")))
      [ (RequestException, fun e =>
           let* _ := print (Msg_ApiRequestError e) in
           ret (PyStr (u "[Translation Error: " ++ exc_str e ++ u "]")));
        (Exception, fun e =>
           let* _ := print (Msg_GeneralError e) in
           ret (PyStr (u "[Error: " ++ exc_str e ++ u "]"))) ].

Definition empty_world : world := {| trace := []; files := ∅ |}.

(** ** Voice capture *)

(** [sr.AudioData] *)
Record audio_data := {
  frame_data : list N;
  sample_rate : Z;
  sample_width : Z
}.

(** The microphone and the recogniser: what each call of the speech
    recognition library comes back with. *)
Record speech_library := {
  (** [sr.Microphone()] and entering its [with] block *)
  Microphone_enter : outcome unit;
  adjust_for_ambient_noise : outcome unit;
  listen : outcome audio_data;
  recognize_google : audio_data -> pystr -> outcome pystr
}.

(** How the [with] block is left: by falling off its end with the audio,
    or by the [return None] of the handler inside it. *)
Inductive with_exit :=
| FellThrough (audio : audio_data)
| ReturnedNone.

Definition capture_user_voice (sr : speech_library) (language : pystr)
  : M (option pystr) :=
  (* recognizer = sr.Recognizer(), pause_threshold, dynamic_energy_threshold *)
  let* _ := call (Microphone_enter sr) in
  let* _ := emit MicrophoneOpened in
  let* left :=
    try_finally
      (let* _ := print (Msg_Listening language) in
       let* _ := call (adjust_for_ambient_noise sr) in
       try_except
         (let* audio := call (listen sr) in
          let* _ := print Msg_Processing in
          ret (FellThrough audio))
         [ (sr_WaitTimeoutError, fun _ =>
              let* _ := print Msg_NoSpeech in
              ret ReturnedNone) ])
      (emit MicrophoneClosed) in
  match left with
  | ReturnedNone => ret None
  | FellThrough audio =>
      try_except
        (let* user_text := call (recognize_google sr audio language) in
         let* _ := print (Msg_Recognized user_text) in
         ret (Some user_text))
        [ (sr_UnknownValueError, fun _ =>
             let* _ := print Msg_NotUnderstood in
             ret None);
          (sr_RequestError, fun e =>
             let* _ := print (Msg_RecognitionError e) in
             ret None) ]
  end.

(** The default of the [language] parameter. *)
Definition default_language : pystr := u "en-US".

(** ** Speech synthesis and playback *)

(** The platform [play_audio] runs on: the operating system, the clock, the
    synthesiser and the players, each call with its outcome. *)
Record platform := {
  os_name : pystr;
  gettempdir : outcome pystr;
  (** [int(time.time())] *)
  time_time : Z;
  gTTS : pystr -> pystr -> outcome unit;
  tts_save : pystr -> outcome unit;
  (** whether a [tts.save] that raises leaves a file behind *)
  save_leaves_partial_file : bool;
  (** the exit status of the command *)
  os_system : pystr -> Z;
  import_pygame : outcome unit;
  mixer_init : outcome unit;
  music_load : pystr -> outcome unit;
  music_play : outcome unit;
  (** the answers of [pygame.mixer.music.get_busy()], in order; the
      player is idle once they are used up *)
  music_get_busy : list (outcome bool);
  mixer_quit : outcome unit;
  import_playsound : outcome unit;
  playsound : pystr -> outcome unit;
  os_remove : pystr -> outcome unit
}.

Definition is_posix (p : platform) : bool := pystr_eqb (os_name p) (u "posix").

Definition ends_with_any (seps : pystr) (s : pystr) : bool :=
  match List.last (List.map Some s) None with
  | Some c => existsb (N.eqb c) seps
  | None => false
  end.

(** [os.path.join(a, b)] for a relative [b] without a drive. *)
Definition os_path_join (p : platform) (a b : pystr) : pystr :=
  if is_posix p then
    if negb (str_truth a) || ends_with_any (u "/") a
    then a ++ b else a ++ u "/" ++ b
  else
    if negb (str_truth a) || ends_with_any (u "\/:") a
    then a ++ b else a ++ u "\" ++ b.

(** [tts.save(path)] *)
Definition save_file (p : platform) (path : pystr) : M unit :=
  fun w =>
    let tr := trace w ++ [SaveCalled path] in
    match tts_save p path with
    | Returns _ => (Returns tt, {| trace := tr; files := files w ∪ {[path]} |})
    | Raises e =>
        (Raises e,
         {| trace := tr;
            files := if save_leaves_partial_file p
                     then files w ∪ {[path]} else files w |})
    end.

(** [os.remove(path)] *)
Definition remove_file (p : platform) (path : pystr) : M unit :=
  fun w =>
    let tr := trace w ++ [RemoveCalled path] in
    match os_remove p path with
    | Returns _ => (Returns tt, {| trace := tr; files := files w ∖ {[path]} |})
    | Raises e => (Raises e, {| trace := tr; files := files w |})
    end.

(** [os.path.exists(path)] *)
Definition os_path_exists (path : pystr) : M bool :=
  fun w => (Returns (bool_decide (path ∈ files w)), w).

(** [while pygame.mixer.music.get_busy(): time.sleep(0.1)] *)
Fixpoint wait_while_busy (answers : list (outcome bool)) : M unit :=
  match answers with
  | [] => ret tt
  | a :: rest =>
      let* busy := call a in
      if busy : bool then
        let* _ := sleep 100 in
        wait_while_busy rest
      else ret tt
  end.

(** The [try] block of the Windows branch, with its fallback. *)
Definition play_with_pygame (p : platform) (temp_filename : pystr) : M unit :=
  try_except
    (let* _ := call (import_pygame p) in
     let* _ := call (mixer_init p) in
     let* _ := call (music_load p temp_filename) in
     let* _ := emit (MixerPlay temp_filename) in
     let* _ := call (music_play p) in
     let* _ := wait_while_busy (music_get_busy p) in
     call (mixer_quit p))
    [ (Exception, fun e =>
         let* _ := print (Msg_PygameError e) in
         try_except
           (let* _ := call (import_playsound p) in
            let* _ := emit (Playsound temp_filename) in
            call (playsound p temp_filename))
           [ (Exception, fun e => print (Msg_PlaybackError e)) ]) ].

(** The [finally] block; [temp_filename] is [None] when the [try] block
    raised before assigning it. *)
Definition clean_up (p : platform) (temp_filename : option pystr) : M unit :=
  match temp_filename with
  | None => ret tt
  | Some f =>
      if str_truth f then
        let* there := os_path_exists f in
        if there : bool then
          try_except
            (let* _ := sleep 1000 in
             remove_file p f)
            [ (Exception, fun e => print (Msg_RemoveError e)) ]
        else ret tt
      else ret tt
  end.

(** The two statements of the [try] block that assign [temp_filename]. *)
Definition name_temp_file (p : platform) : outcome pystr :=
  match gettempdir p with
  | Returns temp_dir =>
      Returns (os_path_join p temp_dir
                 (u "speech_" ++ decimal (time_time p) ++ u ".mp3"))
  | Raises e => Raises e
  end.

Definition play_audio (p : platform) (text language : pystr) (debug : bool)
  : M unit :=
  let* _ :=
    (if debug then
       print (Msg_Speaking language (firstn 30 text)
                (30 <? length text)%nat)
     else ret tt) in
  let assigned := name_temp_file p in
  let temp_filename :=
    match assigned with Returns f => Some f | Raises _ => None end in
  try_finally
    (try_except
       (let* temp_filename := call assigned in
        let* _ := call (gTTS p text language) in
        let* _ := save_file p temp_filename in
        let* _ := sleep 500 in
        if is_posix p then
          let* _ := emit (Command (u "mpg123 -q " ++ temp_filename)) in
          let* _ := ret (os_system p (u "mpg123 -q " ++ temp_filename)) in
          ret tt
        else play_with_pygame p temp_filename)
       [ (Exception, fun e => print (Msg_AudioError e)) ])
    (clean_up p temp_filename).

(** ** Text normalisation *)

(** The three functions of the Python runtime that [normalize_text] calls:
    [str.lower], [unicodedata.normalize('NFKD', _)] and
    [unicodedata.combining]. *)
Record unicode_library := {
  str_lower : pystr -> pystr;
  normalize_NFKD : pystr -> pystr;
  combining : codepoint -> N
}.

(** [not unicodedata.combining(c)]: the combining class is 0 *)
Definition not_combining (U : unicode_library) (c : codepoint) : bool :=
  N.eqb (combining U c) 0.

(** [normalize_text(text)]; [None] is Python's [None]. *)
Definition normalize_text (U : unicode_library) (text : option pystr)
  : option pystr :=
  match text with
  | None => None
  | Some text =>
      let normalized := normalize_NFKD U (str_lower U text) in
      let normalized :=
        join [] (List.map (fun c => [c])
                   (List.filter (not_combining U) normalized)) in
      Some normalized
  end.

(** *** The Unicode character database, in excerpt

    The part of the database that the statements about concrete strings
    rely on: ASCII, the accented letters of the Spanish alphabet, the
    combining marks they decompose to, and the trade mark sign.  A code
    point that is not listed is treated as having no case mapping, no
    decomposition and combining class 0. *)
Module UCD.

Local Open Scope N_scope.

(** Lowercase mapping of one code point. *)
Definition tolower (c : codepoint) : pystr :=
  if (65 <=? c) && (c <=? 90) then [c + 32]        (* A-Z *)
  else if N.eqb c 193 then [225]                   (* A with acute *)
  else if N.eqb c 201 then [233]                   (* E with acute *)
  else if N.eqb c 205 then [237]                   (* I with acute *)
  else if N.eqb c 209 then [241]                   (* N with tilde *)
  else if N.eqb c 211 then [243]                   (* O with acute *)
  else if N.eqb c 218 then [250]                   (* U with acute *)
  else if N.eqb c 220 then [252]                   (* U with diaeresis *)
  else [c].

(** Full compatibility decomposition of one code point. *)
Definition decomposition (c : codepoint) : pystr :=
  if N.eqb c 193 then [65; 769]                    (* A, acute U+0301 *)
  else if N.eqb c 201 then [69; 769]
  else if N.eqb c 205 then [73; 769]
  else if N.eqb c 209 then [78; 771]               (* N, tilde U+0303 *)
  else if N.eqb c 211 then [79; 769]
  else if N.eqb c 218 then [85; 769]
  else if N.eqb c 220 then [85; 776]               (* U, diaeresis U+0308 *)
  else if N.eqb c 225 then [97; 769]
  else if N.eqb c 233 then [101; 769]
  else if N.eqb c 237 then [105; 769]
  else if N.eqb c 241 then [110; 771]
  else if N.eqb c 243 then [111; 769]
  else if N.eqb c 250 then [117; 769]
  else if N.eqb c 252 then [117; 776]
  else if N.eqb c 8482 then [84; 77]               (* U+2122 = T M *)
  else [c].

(** Canonical combining class. *)
Definition ccc (c : codepoint) : N :=
  if N.eqb c 769 then 230
  else if N.eqb c 771 then 230
  else if N.eqb c 776 then 230
  else 0.

(** Canonical ordering: a mark moves in front of the marks before it that
    have a greater combining class; [racc] is the text so far, last
    character first. *)
Fixpoint insert_mark (c : codepoint) (racc : pystr) : pystr :=
  match racc with
  | p :: r =>
      if (0 <? ccc c) && (ccc c <? ccc p)
      then p :: insert_mark c r
      else c :: racc
  | [] => [c]
  end.

Definition canonical_order (s : pystr) : pystr :=
  List.rev (List.fold_left (fun racc c => insert_mark c racc) s []).

Definition lower (s : pystr) : pystr := List.flat_map tolower s.

Definition nfkd (s : pystr) : pystr :=
  canonical_order (List.flat_map decomposition s).

Definition library : unicode_library :=
  {| str_lower := lower; normalize_NFKD := nfkd; combining := ccc |}.

End UCD.

(** ** Running a function on a thread of its own *)

Section Threads.

Context {Arg Val : Type}.

(** How a call of a Python function goes: it takes some steps and then
    returns or raises, or it never ends. *)
Inductive behaviour (A : Type) :=
| Finishes (steps : nat) (r : outcome A)
| Diverges.

(** Where a thread started by the wrapper is in its target. *)
Inductive thread_state :=
| InFunc (b : behaviour Val) (callback : option (Val -> behaviour unit))
| InCallback (result : Val) (b : behaviour unit)
| Finished
| Died (e : exn).

(** The threads of the process, and the calls of callbacks made so far:
    the thread that made the call and the argument it passed, latest last. *)
Record process := {
  threads : gmap nat thread_state;
  next_ident : nat;
  callback_calls : list (nat * Val)
}.

(** One step of a thread; the second component is the argument of a
    callback when the step calls it. *)
Definition thread_step (st : thread_state) : thread_state * option Val :=
  match st with
  | InFunc (Finishes _ (S n) r) cb => (InFunc (Finishes _ n r) cb, None)
  | InFunc (Finishes _ O (Returns result)) (Some cb) =>
      (InCallback result (cb result), Some result)
  | InFunc (Finishes _ O (Returns _)) None => (Finished, None)
  | InFunc (Finishes _ O (Raises e)) _ => (Died e, None)
  | InFunc (Diverges _) cb => (InFunc (Diverges _) cb, None)
  | InCallback v (Finishes _ (S n) r) => (InCallback v (Finishes _ n r), None)
  | InCallback _ (Finishes _ O (Returns _)) => (Finished, None)
  | InCallback _ (Finishes _ O (Raises e)) => (Died e, None)
  | InCallback v (Diverges _) => (InCallback v (Diverges _), None)
  | Finished => (Finished, None)
  | Died e => (Died e, None)
  end.

(** The scheduler lets thread [t] take a step. *)
Definition schedule (t : nat) (s : process) : process :=
  match threads s !! t with
  | None => s
  | Some st =>
      let '(st', called) := thread_step st in
      {| threads := <[t := st']> (threads s);
         next_ident := next_ident s;
         callback_calls :=
           match called with
           | Some v => callback_calls s ++ [(t, v)]
           | None => callback_calls s
           end |}
  end.

Definition run (order : list nat) (s : process) : process :=
  List.fold_left (fun s t => schedule t s) order s.

(** [threading.Thread(target=...).start()]: a new thread, which has not
    taken a step yet. *)
Definition Thread_start (target : thread_state) (s : process) : process :=
  {| threads := <[next_ident s := target]> (threads s);
     next_ident := S (next_ident s);
     callback_calls := callback_calls s |}.

(** [run_in_thread(callback)(func)(args)]: the value the wrapper returns
    to its caller ([None] is Python's [None]) and the process it leaves.
    The callback is a function, which counts as true in [if callback:], or
    it is [None]. *)
Definition run_in_thread (callback : option (Val -> behaviour unit))
  (func : Arg -> behaviour Val) (args : Arg) (s : process)
  : option Val * process :=
  match callback with
  | Some cb =>
      (* thread_target calls func, then callback with the result *)
      let thread_target := InFunc (func args) (Some cb) in
      (None, Thread_start thread_target s)
  | None =>
      (* the target is the partial application of func *)
      (None, Thread_start (InFunc (func args) None) s)
  end.

(** The calls of callbacks that thread [t] made. *)
Definition calls_of (t : nat) (s : process) : list Val :=
  List.map snd (List.filter (fun c => Nat.eqb (fst c) t) (callback_calls s)).

End Threads.

Arguments behaviour : clear implicits.
Arguments thread_state : clear implicits.
Arguments process : clear implicits.

Section CallableObjects.

Context {Arg Val : Type}.

(** A callable object handed to [run_in_thread] as its callback: what
    calling it does, and its truth value, which is what [if callback:]
    tests.  A function is always true; an object whose class defines
    [__bool__] or [__len__] can be false. *)
Record callable := {
  truth_value : bool;
  on_call : Val -> behaviour unit
}.

(** [run_in_thread(callback)(func)(args)] for any callback object, or
    [None]: the test [if callback:] chooses the branch of the wrapper. *)
Definition run_in_thread_with (callback : option callable)
  (func : Arg -> behaviour Val) (args : Arg) (s : process Val)
  : option Val * process Val :=
  match callback with
  | Some c =>
      if truth_value c
      then run_in_thread (Some (on_call c)) func args s
      else run_in_thread None func args s
  | None => run_in_thread None func args s
  end.

End CallableObjects.

Arguments callable : clear implicits.

(** ** Notions the properties are stated with *)

(** The form fields [translate_text] posts. *)
Definition form_fields (text target_language : pystr) : list (pystr * pystr) :=
  [(u "auth_key", API_KEY); (u "text", text);
   (u "target_lang", target_language)].

(** The text of the first translation candidate of a decoded body, when
    the body has the shape [{"translations": [{"text": ...}, ...], ...}]. *)
Definition first_candidate_text (data : pyval) : option pyval :=
  match data with
  | PyDict d =>
      match dict_get (u "translations") d with
      | Some (PyList (PyDict candidate :: _)) => dict_get (u "text") candidate
      | _ => None
      end
  | _ => None
  end.

(** A status for which [raise_for_status] raises. *)
Definition error_status (r : response) : Prop :=
  (400 <= status_code r < 600)%Z.

(** The [HTTPError] that [raise_for_status] raises for an error status:
    below 500 a client error, from 500 on a server error. *)
Definition http_error (r : response) : exn :=
  {| exc_type := requests_HTTPError;
     exc_str := decimal (status_code r)
                ++ (if (status_code r <? 500)%Z
                    then u " Client Error: " else u " Server Error: ")
                ++ reason r ++ u " for url: " ++ url r |}.

(** The request fails: in transport, with the exception that
    [requests.post] raises, or with an error status, with the exception
    that [raise_for_status] raises for it. *)
Inductive request_failure (requests_post : http_client)
  (text target_language : pystr) : exn -> Prop :=
| transport_failure e :
    requests_post API_URL (form_fields text target_language) 10%Z = Raises e ->
    isinstance e RequestException = true ->
    request_failure requests_post text target_language e
| status_failure r :
    requests_post API_URL (form_fields text target_language) 10%Z = Returns r ->
    error_status r ->
    request_failure requests_post text target_language (http_error r).

(** The endpoint answers without an error status, and the body cannot be
    decoded, or it is decoded and has no first candidate with a text. *)
Inductive malformed_response (requests_post : http_client)
  (text target_language : pystr) : Prop :=
| undecodable_body r e :
    requests_post API_URL (form_fields text target_language) 10%Z = Returns r ->
    ~ error_status r ->
    json r = Raises e ->
    isinstance e Exception = true ->
    malformed_response requests_post text target_language
| unexpected_shape r data :
    requests_post API_URL (form_fields text target_language) 10%Z = Returns r ->
    ~ error_status r ->
    json r = Returns data ->
    first_candidate_text data = None ->
    malformed_response requests_post text target_language.

(** The three ways recognition fails once the microphone is open and
    calibrated. *)
Inductive recognition_failure (sr : speech_library) (language : pystr)
  : Prop :=
| no_speech_detected e :
    listen sr = Raises e ->
    isinstance e sr_WaitTimeoutError = true ->
    recognition_failure sr language
| speech_not_understood audio e :
    listen sr = Returns audio ->
    recognize_google sr audio language = Raises e ->
    isinstance e sr_UnknownValueError = true ->
    recognition_failure sr language
| recognizer_failed audio e :
    listen sr = Returns audio ->
    recognize_google sr audio language = Raises e ->
    isinstance e sr_RequestError = true ->
    recognition_failure sr language.

(** What a call raises, if it raises, is an error: an instance of
    [Exception], not a [KeyboardInterrupt] or a [SystemExit]. *)
Definition raises_errors_only {A} (o : outcome A) : Prop :=
  match o with
  | Returns _ => True
  | Raises e => isinstance e Exception = true
  end.

(** Synthesis, playback, file write and file delete fail with errors only. *)
Record failures_are_errors (p : platform) : Prop := {
  gettempdir_error : raises_errors_only (gettempdir p);
  gTTS_error : forall text language, raises_errors_only (gTTS p text language);
  tts_save_error : forall path, raises_errors_only (tts_save p path);
  import_pygame_error : raises_errors_only (import_pygame p);
  mixer_init_error : raises_errors_only (mixer_init p);
  music_load_error : forall path, raises_errors_only (music_load p path);
  music_play_error : raises_errors_only (music_play p);
  music_get_busy_error : Forall raises_errors_only (music_get_busy p);
  mixer_quit_error : raises_errors_only (mixer_quit p);
  import_playsound_error : raises_errors_only (import_playsound p);
  playsound_error : forall path, raises_errors_only (playsound p path);
  os_remove_error : forall path, raises_errors_only (os_remove p path)
}.

(** A computation that raises errors only, and only adds to the trace. *)
Definition well_behaved {A} (m : M A) : Prop :=
  forall w,
    (exists evs, trace (snd (m w)) = trace w ++ evs) /\
    raises_errors_only (fst (m w)).

(** A computation that always returns, and only adds to the trace. *)
Definition never_raises {A} (m : M A) : Prop :=
  forall w, exists a w' evs,
    m w = (Returns a, w') /\ trace w' = trace w ++ evs.

(** The identifiers from [next_ident] on are unused. *)
Definition fresh_idents {Val} (s : process Val) : Prop :=
  (forall t, next_ident s <= t -> threads s !! t = None) /\
  (forall t v, In (t, v) (callback_calls s) -> t < next_ident s).

(** The state of a thread after [k] steps of its own, and the arguments of
    the callback calls it made on the way. *)
Fixpoint thread_run {Val} (k : nat) (st : thread_state Val)
  : thread_state Val * list Val :=
  match k with
  | O => (st, [])
  | S k' =>
      let '(st', called) := thread_step st in
      let '(st'', calls) := thread_run k' st' in
      (st'', match called with Some v => v :: calls | None => calls end)
  end.

(** ** Sample environments *)

(** An endpoint that answers 200 with the given decoded body. *)
Definition replies (data : pyval) : http_client :=
  fun _ _ _ =>
    Returns {| status_code := 200; reason := u "OK"; url := API_URL;
               json := Returns data |}.

(** An endpoint that cannot be reached. *)
Definition unreachable : http_client :=
  fun _ _ _ =>
    Raises {| exc_type := requests_ConnectionError;
              exc_str := u "Connection refused" |}.

(** An endpoint that answers with the given status and no usable body. *)
Definition refuses (status : Z) (why : pystr) : http_client :=
  fun _ _ _ =>
    Returns {| status_code := status; reason := why; url := API_URL;
               json := Raises {| exc_type := requests_JSONDecodeError;
                                 exc_str := u "Expecting value" |} |}.

(** A body with one candidate. *)
Definition mocked_body : pyval :=
  PyDict [(u "translations",
           PyList [PyDict [(u "detected_source_language", PyStr (u "EN"));
                           (u "text", PyStr (u "Hola"))]])].

(** A body whose only candidate has no text. *)
Definition body_without_text : pyval :=
  PyDict [(u "translations", PyList [PyDict []])].

(** A microphone in a silent room: the wait for speech times out. *)
Definition silent_room : speech_library :=
  {| Microphone_enter := Returns tt;
     adjust_for_ambient_noise := Returns tt;
     listen := Raises {| exc_type := sr_WaitTimeoutError;
                         exc_str := u "listening timed out" |};
     recognize_google := fun _ _ => Returns [] |}.

(** A Linux machine on which every call succeeds. *)
Definition linux_machine : platform :=
  {| os_name := u "posix";
     gettempdir := Returns (u "/tmp");
     time_time := 1700000000;
     gTTS := fun _ _ => Returns tt;
     tts_save := fun _ => Returns tt;
     save_leaves_partial_file := false;
     os_system := fun _ => 0%Z;
     import_pygame := Returns tt;
     mixer_init := Returns tt;
     music_load := fun _ => Returns tt;
     music_play := Returns tt;
     music_get_busy := [];
     mixer_quit := Returns tt;
     import_playsound := Returns tt;
     playsound := fun _ => Returns tt;
     os_remove := fun _ => Returns tt |}.

(** A process in which no thread has been started yet. *)
Definition idle_process : process nat :=
  {| threads := ∅; next_ident := 1; callback_calls := [] |}.

(** A function that takes two steps to return the successor of its
    argument, and a callback that returns at once. *)
Definition successor (n : nat) : behaviour nat := Finishes _ 2 (Returns (S n)).
Definition notify (_ : nat) : behaviour unit := Finishes _ 0 (Returns tt).

(** ** Notions the further properties are stated with *)

(** The request and the decoding of the body fail with errors only. *)
Definition client_errors_only (requests_post : http_client)
  (text target_language : pystr) : Prop :=
  raises_errors_only
    (requests_post API_URL (form_fields text target_language) 10%Z) /\
  forall r,
    requests_post API_URL (form_fields text target_language) 10%Z = Returns r ->
    raises_errors_only (json r).

(** A string that begins with one of the two markers of [translate_text]. *)
Definition error_report (v : pyval) : Prop :=
  exists s,
    v = PyStr s /\
    (startswith (u "[Translation Error: ") s = true \/
     startswith (u "[Error: ") s = true).

(** What a call of [translate_text] that starts in [w] can end with: the
    files are as they were, at most one line was printed, a returned value
    is an error report or the text of the first candidate of the decoded
    body, and a raised exception is one of the client that is not an
    error. *)
Definition translate_text_result (requests_post : http_client)
  (text target_language : pystr) (w : world) (res : outcome pyval * world)
  : Prop :=
  files (snd res) = files w /\
  (trace (snd res) = trace w \/
   exists m, trace (snd res) = trace w ++ [Print m]) /\
  match fst res with
  | Returns v =>
      error_report v \/
      exists r data,
        requests_post API_URL (form_fields text target_language) 10%Z
          = Returns r /\
        ~ error_status r /\
        json r = Returns data /\
        first_candidate_text data = Some v
  | Raises e =>
      isinstance e Exception = false /\
      (requests_post API_URL (form_fields text target_language) 10%Z
         = Raises e \/
       exists r,
         requests_post API_URL (form_fields text target_language) 10%Z
           = Returns r /\
         json r = Raises e)
  end.

(** A failure of the speech library that [capture_user_voice] has no
    handler for. *)
Inductive uncaught_failure (sr : speech_library) (language : pystr)
  : exn -> Prop :=
| calibration_failed e :
    adjust_for_ambient_noise sr = Raises e ->
    uncaught_failure sr language e
| listening_failed e :
    adjust_for_ambient_noise sr = Returns tt ->
    listen sr = Raises e ->
    isinstance e sr_WaitTimeoutError = false ->
    uncaught_failure sr language e
| recognition_failed audio e :
    adjust_for_ambient_noise sr = Returns tt ->
    listen sr = Returns audio ->
    recognize_google sr audio language = Raises e ->
    isinstance e sr_UnknownValueError = false ->
    isinstance e sr_RequestError = false ->
    uncaught_failure sr language e.

(** Whether the microphone is open after the events of a trace. *)
Definition microphone_open (tr : list event) : bool :=
  List.fold_left
    (fun is_open ev =>
       match ev with
       | MicrophoneOpened => true
       | MicrophoneClosed => false
       | _ => is_open
       end)
    tr false.

(** A computation that leaves every file but [f] as it was, whether it
    returns or raises. *)
Definition keeps_other_files {A} (f : pystr) (m : M A) : Prop :=
  forall w g, g <> f -> (g ∈ files (snd (m w)) <-> g ∈ files w).

(** The line [play_audio] prints first when [debug] is set. *)
Definition debug_line (text language : pystr) (debug : bool) : list event :=
  if debug
  then [Print (Msg_Speaking language (firstn 30 text)
                 (30 <? length text)%nat)]
  else [].

(** The characters of a Spanish text: ASCII, the inverted exclamation and
    question marks, the accented letters, and the three combining marks. *)
Definition spanish_character (c : codepoint) : bool :=
  (c <? 128)%N ||
  existsb (N.eqb c)
    [161; 191; 193; 201; 205; 209; 211; 218; 220;
     225; 233; 237; 241; 243; 250; 252; 769; 771; 776]%N.

Definition spanish_text (s : pystr) : Prop :=
  forallb spanish_character s = true.

(** A character of a normalised Spanish text: ASCII but not a capital
    letter, or one of the two inverted marks. *)
Definition plain_character (c : codepoint) : bool :=
  ((c <? 128)%N && negb ((65 <=? c)%N && (c <=? 90)%N)) ||
  N.eqb c 161 || N.eqb c 191.

(** What [normalize_text] makes of one character, on the excerpt. *)
Definition normalized_character (c : codepoint) : pystr :=
  List.filter (fun d => N.eqb (UCD.ccc d) 0)
    (List.flat_map UCD.decomposition (UCD.tolower c)).

(** A machine on which the synthesiser is out of reach. *)
Definition offline_machine : platform :=
  {| os_name := u "posix";
     gettempdir := Returns (u "/tmp");
     time_time := 1700000000;
     gTTS := fun _ _ => Raises {| exc_type := gTTSError;
                                  exc_str := u "Failed to connect" |};
     tts_save := fun _ => Returns tt;
     save_leaves_partial_file := false;
     os_system := fun _ => 0%Z;
     import_pygame := Returns tt;
     mixer_init := Returns tt;
     music_load := fun _ => Returns tt;
     music_play := Returns tt;
     music_get_busy := [];
     mixer_quit := Returns tt;
     import_playsound := Returns tt;
     playsound := fun _ => Returns tt;
     os_remove := fun _ => Returns tt |}.

(** A Windows machine without pygame, on which playsound works. *)
Definition windows_machine : platform :=
  {| os_name := u "nt";
     gettempdir := Returns (u "C:\Temp");
     time_time := 1700000000;
     gTTS := fun _ _ => Returns tt;
     tts_save := fun _ => Returns tt;
     save_leaves_partial_file := false;
     os_system := fun _ => 1%Z;
     import_pygame := Raises {| exc_type := ImportError;
                                exc_str := u "No module named 'pygame'" |};
     mixer_init := Returns tt;
     music_load := fun _ => Returns tt;
     music_play := Returns tt;
     music_get_busy := [];
     mixer_quit := Returns tt;
     import_playsound := Returns tt;
     playsound := fun _ => Returns tt;
     os_remove := fun _ => Returns tt |}.

(** A room in which a phrase is heard and recognised. *)
Definition quiet_office : speech_library :=
  {| Microphone_enter := Returns tt;
     adjust_for_ambient_noise := Returns tt;
     listen := Returns {| frame_data := [0; 1; 2]%N; sample_rate := 16000;
                          sample_width := 2 |};
     recognize_google := fun _ _ => Returns (u "hello") |}.

(** A machine without an audio input device. *)
Definition no_microphone : speech_library :=
  {| Microphone_enter := Raises {| exc_type := OSError;
                                   exc_str := u "No Default Input Device Available" |};
     adjust_for_ambient_noise := Returns tt;
     listen := Returns {| frame_data := []; sample_rate := 16000;
                          sample_width := 2 |};
     recognize_google := fun _ _ => Returns [] |}.

(** A recogniser that answers with something it should not. *)
Definition broken_recogniser : speech_library :=
  {| Microphone_enter := Returns tt;
     adjust_for_ambient_noise := Returns tt;
     listen := Returns {| frame_data := []; sample_rate := 16000;
                          sample_width := 2 |};
     recognize_google := fun _ _ =>
       Raises {| exc_type := ValueError; exc_str := u "bad response" |} |}.

(** The callback [notify] as a function object, and a callable that is
    false in a test (an empty container with a [__call__] method). *)
Definition notify_function : callable nat :=
  {| truth_value := true; on_call := notify |}.
Definition empty_container : callable nat :=
  {| truth_value := false; on_call := notify |}.

(** A function that raises after one step, and one that never ends. *)
Definition failing (_ : nat) : behaviour nat :=
  Finishes _ 1 (Raises {| exc_type := ValueError; exc_str := u "no" |}).
Definition endless (_ : nat) : behaviour nat := Diverges _.

(** * Part II: properties *)

(** ** Strings *)

Lemma startswith_app (p s : pystr) : startswith p (p ++ s) = true.
Proof.
  induction p as [|a p IH]; simpl; [reflexivity|].
  rewrite N.eqb_refl. exact IH.
Qed.

Lemma startswith_prefix (p s : pystr) :
  startswith p s = true <-> exists t, s = p ++ t.
Proof.
  split.
  - revert s. induction p as [|a p IH]; intros s H.
    + exists s. reflexivity.
    + destruct s as [|b s]; simpl in H; [discriminate|].
      apply andb_true_iff in H. destruct H as [Hab Hps].
      apply N.eqb_eq in Hab. subst b.
      destruct (IH s Hps) as [t ->]. exists t. reflexivity.
  - intros [t ->]. apply startswith_app.
Qed.

Lemma occurs_in_app (a p b : pystr) : occurs_in p (a ++ p ++ b) = true.
Proof.
  induction a as [|c a IH]; simpl.
  - destruct (p ++ b) eqn:E; simpl.
    + destruct p; [reflexivity | discriminate].
    + rewrite <- E, startswith_app. reflexivity.
  - rewrite IH. apply orb_true_r.
Qed.

Lemma join_empty_singletons (l : pystr) :
  join [] (List.map (fun c => [c]) l) = l.
Proof.
  induction l as [|c l IH]; [reflexivity|].
  destruct l as [|d l]; [reflexivity|].
  change (join [] (List.map (fun c => [c]) (c :: d :: l)))
    with (c :: join [] (List.map (fun c => [c]) (d :: l))).
  now rewrite IH.
Qed.

(** ** Text normalisation *)

(** The result is the decomposed lower-case text without its marks. *)
Lemma normalize_text_Some (U : unicode_library) (s : pystr) :
  normalize_text U (Some s) =
  Some (List.filter (not_combining U) (normalize_NFKD U (str_lower U s))).
Proof. unfold normalize_text. now rewrite join_empty_singletons. Qed.

(** C8: [normalize_text(None)] is [None]: the absent input comes back
    unchanged, neither a string nor an exception. *)
Theorem normalize_text_None (U : unicode_library) :
  normalize_text U None = None.
Proof. reflexivity. Qed.

(** C9: ["Café"] (U+00E9 for the accented letter) and ["cafe"] both
    normalise to ["cafe"]. *)
Theorem normalize_text_cafe :
  normalize_text UCD.library (Some (u "Caf" ++ [233%N])) = Some (u "cafe") /\
  normalize_text UCD.library (Some (u "cafe")) = Some (u "cafe").
Proof. split; vm_compute; reflexivity. Qed.

(** The same holds when the accent is typed as a separate combining mark. *)
Lemma normalize_text_cafe_decomposed :
  normalize_text UCD.library (Some (u "Cafe" ++ [769%N])) = Some (u "cafe").
Proof. vm_compute. reflexivity. Qed.

(** C10: whatever the string, [normalize_text] returns a string, and every
    character of it has combining class zero. *)
Theorem normalize_text_no_combining (U : unicode_library) (s : pystr) :
  exists out,
    normalize_text U (Some s) = Some out /\
    List.Forall (fun c => combining U c = 0%N) out.
Proof.
  eexists. split; [apply normalize_text_Some|].
  apply List.Forall_forall. intros c Hc.
  apply List.filter_In in Hc. destruct Hc as [_ Hc].
  unfold not_combining in Hc. now apply N.eqb_eq in Hc.
Qed.

(** C2: [normalize_text] is not idempotent.  The trade mark sign U+2122 has
    no lower case and decomposes to the capital letters [TM]; a second
    call lowers them. *)
Theorem normalize_text_trade_mark :
  normalize_text UCD.library (Some [8482%N]) = Some (u "TM") /\
  normalize_text UCD.library (normalize_text UCD.library (Some [8482%N]))
    = Some (u "tm") /\
  normalize_text UCD.library (normalize_text UCD.library (Some [8482%N]))
    <> normalize_text UCD.library (Some [8482%N]).
Proof. repeat split; vm_compute; congruence. Qed.

(** X27: what idempotence needs: a result that lowering and decomposing
    leave alone is a fixed point. *)
Lemma normalize_text_fixed_point (U : unicode_library) (s out : pystr) :
  normalize_text U (Some s) = Some out ->
  str_lower U out = out ->
  normalize_NFKD U out = out ->
  normalize_text U (normalize_text U (Some s)) = normalize_text U (Some s).
Proof.
  intros Hout Hlow Hdec. rewrite Hout.
  rewrite normalize_text_Some in *. injection Hout as Hout.
  rewrite Hlow, Hdec. f_equal.
  rewrite <- Hout at 1 2. clear.
  induction (normalize_NFKD U (str_lower U s)) as [|c l IH]; [reflexivity|].
  simpl. destruct (not_combining U c) eqn:E; simpl; rewrite ?E, IH; reflexivity.
Qed.

(** Canonical ordering only moves marks: the text without its marks is the
    same before and after. *)
Lemma insert_mark_starters (c : N) (racc : pystr) :
  List.filter (fun c => N.eqb (UCD.ccc c) 0) (UCD.insert_mark c racc) =
  List.filter (fun c => N.eqb (UCD.ccc c) 0) (c :: racc).
Proof.
  induction racc as [|p r IH]; [reflexivity|].
  cbn [UCD.insert_mark].
  destruct ((0 <? UCD.ccc c)%N && (UCD.ccc c <? UCD.ccc p)%N) eqn:E;
    [|reflexivity].
  apply andb_true_iff in E. destruct E as [Hc Hp].
  apply N.ltb_lt in Hc, Hp.
  assert (Ec : N.eqb (UCD.ccc c) 0 = false) by (apply N.eqb_neq; lia).
  assert (Ep : N.eqb (UCD.ccc p) 0 = false) by (apply N.eqb_neq; lia).
  cbn [List.filter] in *. rewrite Ep. rewrite IH. rewrite Ec. reflexivity.
Qed.

Lemma canonical_order_starters (s : pystr) :
  List.filter (fun c => N.eqb (UCD.ccc c) 0) (UCD.canonical_order s) =
  List.filter (fun c => N.eqb (UCD.ccc c) 0) s.
Proof.
  unfold UCD.canonical_order.
  assert (G : forall acc,
    List.filter (fun c => N.eqb (UCD.ccc c) 0)
      (List.rev (List.fold_left (fun racc c => UCD.insert_mark c racc) s acc)) =
    List.filter (fun c => N.eqb (UCD.ccc c) 0) (List.rev acc) ++
    List.filter (fun c => N.eqb (UCD.ccc c) 0) s).
  { induction s as [|c s IH]; intros acc; simpl.
    - now rewrite List.app_nil_r.
    - rewrite IH.
      rewrite !List.filter_rev, insert_mark_starters, <- !List.filter_rev.
      simpl. rewrite List.filter_app, <- List.app_assoc. simpl.
      destruct (N.eqb (UCD.ccc c) 0); reflexivity. }
  rewrite G. reflexivity.
Qed.

(** On the excerpt, the result is the decomposition of the lower-case text
    without its marks, whatever order the marks were in. *)
Lemma normalize_text_UCD (s : pystr) :
  normalize_text UCD.library (Some s) =
  Some (List.filter (fun c => N.eqb (UCD.ccc c) 0)
          (List.flat_map UCD.decomposition (List.flat_map UCD.tolower s))).
Proof.
  rewrite normalize_text_Some. f_equal.
  apply canonical_order_starters.
Qed.

(** ** Translation *)

(** The credential is configured, so the request is always made. *)
Lemma translate_text_requests (requests_post : http_client)
  (text target_language : pystr) :
  translate_text requests_post text target_language =
  try_except
    (let* response :=
       call (requests_post API_URL (form_fields text target_language) 10%Z) in
     let* _ := call (raise_for_status response) in
     let* data := call (json response) in
     let* present := call (py_contains (u "translations") data) in
     let* nonempty :=
       (if present : bool then
          let* candidates := call (py_getitem data (Key (u "translations"))) in
          let* n := call (py_len candidates) in
          ret (0 <? n)%Z
        else ret false) in
     if nonempty : bool then
       let* candidates := call (py_getitem data (Key (u "translations"))) in
       let* first := call (py_getitem candidates (Index 0)) in
       call (py_getitem first (Key (u "text")))
     else
       let* _ := print (Msg_UnexpectedFormat data) in
       ret (PyStr (u "[Translation Error: Unexpected API response format]")))
    [ (RequestException, fun e =>
         let* _ := print (Msg_ApiRequestError e) in
         ret (PyStr (u "[Translation Error: " ++ exc_str e ++ u "]")));
      (Exception, fun e =>
         let* _ := print (Msg_GeneralError e) in
         ret (PyStr (u "[Error: " ++ exc_str e ++ u "]"))) ].
Proof. reflexivity. Qed.

Lemma raise_for_status_passes (r : response) :
  ~ error_status r -> raise_for_status r = Returns tt.
Proof.
  unfold error_status, raise_for_status. intros H.
  destruct ((400 <=? status_code r)%Z && (status_code r <? 500)%Z) eqn:E1.
  { apply andb_true_iff in E1. lia. }
  destruct ((500 <=? status_code r)%Z && (status_code r <? 600)%Z) eqn:E2.
  { apply andb_true_iff in E2. lia. }
  reflexivity.
Qed.

Lemma raise_for_status_raises (r : response) :
  error_status r ->
  exists e, raise_for_status r = Raises e /\ exc_type e = requests_HTTPError.
Proof.
  unfold error_status, raise_for_status. intros H.
  destruct ((400 <=? status_code r)%Z && (status_code r <? 500)%Z) eqn:E1.
  { eexists. split; reflexivity. }
  destruct ((500 <=? status_code r)%Z && (status_code r <? 600)%Z) eqn:E2.
  { eexists. split; reflexivity. }
  apply andb_false_iff in E1, E2. lia.
Qed.

Lemma first_position (n : nat) : seq_position (S n) 0 = Some 0%nat.
Proof.
  unfold seq_position.
  change (0 <? 0)%Z with false. cbv iota.
  replace (0 <? Z.of_nat (S n))%Z with true by (symmetry; apply Z.ltb_lt; lia).
  reflexivity.
Qed.


(** When the request succeeds and the body is decoded, the result is the
    text of the first candidate if there is one. *)
Lemma translate_text_decoded (requests_post : http_client)
  (text target_language : pystr) (r : response) (data v : pyval) (w : world) :
  requests_post API_URL (form_fields text target_language) 10%Z = Returns r ->
  ~ error_status r ->
  json r = Returns data ->
  first_candidate_text data = Some v ->
  translate_text requests_post text target_language w = (Returns v, w).
Proof.
  intros Hpost Hst Hjson Hfirst.
  rewrite translate_text_requests.
  unfold try_except, bind, call. rewrite Hpost.
  rewrite (raise_for_status_passes r Hst). rewrite Hjson.
  destruct data as [| | | | |l|d]; try discriminate.
  cbn [first_candidate_text] in Hfirst.
  cbn [py_contains py_getitem].
  destruct (dict_get (u "translations") d) as [t|] eqn:Et; [|discriminate].
  destruct t as [| | | | |[|c rest]|]; try discriminate.
  destruct c as [| | | | | |cd]; try discriminate.
  cbn [py_len py_getitem length].
  replace (0 <? Z.of_nat (S (length rest)))%Z with true
    by (symmetry; apply Z.ltb_lt; lia).
  unfold ret. rewrite first_position. cbn [nth_error py_getitem].
  rewrite Hfirst. reflexivity.
Qed.

(** C5: a success status and a body with a non-empty list of candidates:
    the result is the text of the first candidate, and nothing is printed. *)
Theorem translate_text_first_candidate (requests_post : http_client)
  (text target_language : pystr) (r : response)
  (d candidate : list (pystr * pyval)) (rest : list pyval) (v : pyval)
  (w : world) :
  requests_post API_URL (form_fields text target_language) 10%Z = Returns r ->
  (200 <= status_code r < 300)%Z ->
  json r = Returns (PyDict d) ->
  dict_get (u "translations") d = Some (PyList (PyDict candidate :: rest)) ->
  dict_get (u "text") candidate = Some v ->
  translate_text requests_post text target_language w = (Returns v, w).
Proof.
  intros Hpost Hst Hjson Hcands Htext.
  apply (translate_text_decoded _ _ _ r (PyDict d)); try assumption.
  - unfold error_status. lia.
  - cbn [first_candidate_text]. rewrite Hcands. exact Htext.
Qed.

Lemma translate_text_first_candidate_witness :
  (200 <= status_code {| status_code := 200; reason := u "OK"; url := API_URL;
                         json := Returns mocked_body |} < 300)%Z /\
  translate_text (replies mocked_body) (u "Hello, how are you today?") (u "ES")
    empty_world = (Returns (PyStr (u "Hola")), empty_world).
Proof.
  split; [cbn; lia|].
  apply (translate_text_first_candidate (replies mocked_body)
           (u "Hello, how are you today?") (u "ES")
           {| status_code := 200; reason := u "OK"; url := API_URL;
              json := Returns mocked_body |}
           [(u "translations",
             PyList [PyDict [(u "detected_source_language", PyStr (u "EN"));
                             (u "text", PyStr (u "Hola"))]])]
           [(u "detected_source_language", PyStr (u "EN"));
            (u "text", PyStr (u "Hola"))]
           [] (PyStr (u "Hola")) empty_world);
    [reflexivity | cbn; lia | reflexivity | reflexivity | reflexivity].
Defined.


Lemma raise_for_status_error (r : response) :
  error_status r -> raise_for_status r = Raises (http_error r).
Proof.
  unfold error_status, raise_for_status, http_error. intros H.
  destruct ((400 <=? status_code r)%Z && (status_code r <? 500)%Z) eqn:E1.
  - apply andb_true_iff in E1. destruct E1 as [_ E1]. now rewrite E1.
  - destruct ((500 <=? status_code r)%Z && (status_code r <? 600)%Z) eqn:E2.
    + apply andb_true_iff in E2. destruct E2 as [E2 _].
      replace (status_code r <? 500)%Z with false
        by (symmetry; apply Z.ltb_ge; lia).
      reflexivity.
    + apply andb_false_iff in E1, E2. lia.
Qed.

(** C4, as the code has it: when the request fails in transport (with a
    [RequestException]) or the response has an error status (400 to 599,
    the statuses [raise_for_status] raises for), the result is the string
    ["[Translation Error: " + str(e) + "]"], where [e] is the exception of
    the transport or the [HTTPError] of the status: it begins with the
    marker and contains the detail of the failure; one line is printed and
    nothing is raised. *)
Theorem translate_text_request_failure (requests_post : http_client)
  (text target_language : pystr) (e : exn) (w : world) :
  request_failure requests_post text target_language e ->
  exists s,
    translate_text requests_post text target_language w =
      (Returns (PyStr s),
       {| trace := trace w ++ [Print (Msg_ApiRequestError e)];
          files := files w |}) /\
    s = u "[Translation Error: " ++ exc_str e ++ u "]" /\
    startswith (u "[Translation Error: ") s = true /\
    occurs_in (exc_str e) s = true.
Proof.
  intros Hfail. eexists. split; [|split; [reflexivity|split]].
  - rewrite translate_text_requests. unfold try_except, bind, call.
    destruct Hfail as [e Hpost He | r Hpost Hst].
    + rewrite Hpost. cbn [find_handler]. rewrite He. reflexivity.
    + rewrite Hpost, (raise_for_status_error r Hst). reflexivity.
  - apply startswith_app.
  - apply occurs_in_app.
Qed.

(** A transport failure, and an error status. *)
Lemma translate_text_request_failure_witness :
  (request_failure unreachable (u "Hello") (u "ES")
     {| exc_type := requests_ConnectionError;
        exc_str := u "Connection refused" |} /\
   exists s,
     translate_text unreachable (u "Hello") (u "ES") empty_world =
       (Returns (PyStr s),
        {| trace := [Print (Msg_ApiRequestError
                              {| exc_type := requests_ConnectionError;
                                 exc_str := u "Connection refused" |})];
           files := ∅ |}) /\
     s = u "[Translation Error: Connection refused]" /\
     startswith (u "[Translation Error: ") s = true /\
     occurs_in (u "Connection refused") s = true) /\
  (error_status {| status_code := 403; reason := u "Forbidden";
                   url := API_URL;
                   json := Raises {| exc_type := requests_JSONDecodeError;
                                     exc_str := u "Expecting value" |} |} /\
   exists s,
     translate_text (refuses 403 (u "Forbidden")) (u "Hello") (u "ES")
       empty_world =
       (Returns (PyStr s),
        {| trace := [Print (Msg_ApiRequestError
                              (http_error
                                 {| status_code := 403;
                                    reason := u "Forbidden"; url := API_URL;
                                    json := Raises
                                      {| exc_type := requests_JSONDecodeError;
                                         exc_str := u "Expecting value" |} |}))];
           files := ∅ |}) /\
     s = u "[Translation Error: 403 Client Error: Forbidden for url: https://api-free.deepl.com/v2/translate]" /\
     startswith (u "[Translation Error: ") s = true /\
     occurs_in (u "403 Client Error: Forbidden") s = true).
Proof.
  assert (H1 : request_failure unreachable (u "Hello") (u "ES")
                 {| exc_type := requests_ConnectionError;
                    exc_str := u "Connection refused" |})
    by (apply transport_failure; reflexivity).
  assert (H2 : error_status
                 {| status_code := 403; reason := u "Forbidden";
                    url := API_URL;
                    json := Raises {| exc_type := requests_JSONDecodeError;
                                      exc_str := u "Expecting value" |} |})
    by (unfold error_status; cbn; lia).
  split; (split; [assumption|]).
  - exact (translate_text_request_failure unreachable (u "Hello") (u "ES")
             _ empty_world H1).
  - destruct (translate_text_request_failure (refuses 403 (u "Forbidden"))
                (u "Hello") (u "ES") _ empty_world
                (status_failure (refuses 403 (u "Forbidden")) (u "Hello")
                   (u "ES") _ eq_refl H2))
      as (s & Hrun & Hs & Hmark & _).
    exists s. split; [exact Hrun|]. split; [exact Hs|].
    split; [exact Hmark|]. rewrite Hs. vm_compute. reflexivity.
Defined.

(** C4, as the specification has it, fails for a status that is not a
    success and not an error either: a response 304 with a body that
    holds a candidate is not a 2xx response, and [translate_text] returns
    the candidate, with no marker and nothing printed. *)
Lemma translate_text_not_modified :
  ~ (200 <= status_code {| status_code := 304; reason := u "Not Modified";
                           url := API_URL; json := Returns mocked_body |}
     < 300)%Z /\
  translate_text
    (fun _ _ _ =>
       Returns {| status_code := 304; reason := u "Not Modified";
                  url := API_URL; json := Returns mocked_body |})
    (u "Hello") (u "ES") empty_world
  = (Returns (PyStr (u "Hola")), empty_world) /\
  startswith (u "[Translation Error: ") (u "Hola") = false /\
  startswith (u "[") (u "Hola") = false.
Proof.
  split; [cbn; lia|].
  split; [vm_compute; reflexivity|].
  split; vm_compute; reflexivity.
Qed.

(** An error status is reported the same way. *)
Lemma translate_text_forbidden :
  fst (translate_text
         (fun _ _ _ => Returns {| status_code := 403; reason := u "Forbidden";
                                  url := API_URL; json := Returns PyNone |})
         (u "Hello") (u "ES") empty_world) =
  Returns (PyStr (u "[Translation Error: 403 Client Error: Forbidden for url: https://api-free.deepl.com/v2/translate]")).
Proof. vm_compute. reflexivity. Qed.


(** The two markers an error report begins with. *)
Lemma error_report_markers (s : pystr) :
  s = u "[Translation Error: Unexpected API response format]" \/
  (exists detail, s = u "[Translation Error: " ++ detail ++ u "]") \/
  (exists detail, s = u "[Error: " ++ detail ++ u "]") ->
  startswith (u "[Translation Error: ") s = true \/
  startswith (u "[Error: ") s = true.
Proof.
  intros [-> | [[detail ->] | [detail ->]]].
  - left. reflexivity.
  - left. apply startswith_app.
  - right. apply startswith_app.
Qed.

Ltac evaluate_report :=
  match goal with
  | |- exists s w', ?lhs = (Returns (PyStr s), w') /\ _ =>
      let v := eval vm_compute in lhs in
      match v with
      | (Returns (PyStr ?s0), ?w0) =>
          exists s0, w0; split;
          [ vm_compute; reflexivity
          | first [ left; vm_compute; reflexivity
                  | right; vm_compute; reflexivity ] ]
      end
  end.

(** C1, as the code has it: when the endpoint answers and the body cannot
    be decoded or has no first candidate with a text, the result is a
    string that begins with ["[Translation Error: "] or with ["[Error: "];
    nothing is raised. *)
Theorem translate_text_malformed_response (requests_post : http_client)
  (text target_language : pystr) (w : world) :
  malformed_response requests_post text target_language ->
  exists s w',
    translate_text requests_post text target_language w =
      (Returns (PyStr s), w') /\
    (startswith (u "[Translation Error: ") s = true \/
     startswith (u "[Error: ") s = true).
Proof.
  intros [r e Hpost Hst Hjson He | r data Hpost Hst Hjson Hshape];
    rewrite translate_text_requests; unfold try_except, bind, call;
    rewrite Hpost, (raise_for_status_passes r Hst), Hjson.
  - cbn [find_handler].
    destruct (isinstance e RequestException); [|rewrite He];
      (eexists _, _; split; [reflexivity|]).
    + left. apply startswith_app.
    + right. apply startswith_app.
  - destruct data as [| | | | s | l | d]; cbn [py_contains].
    + evaluate_report.
    + evaluate_report.
    + evaluate_report.
    + evaluate_report.
    + destruct (occurs_in (u "translations") s); evaluate_report.
    + destruct (existsb (eq_str (u "translations")) l); evaluate_report.
    + cbn [first_candidate_text] in Hshape. cbn [py_getitem].
      destruct (dict_get (u "translations") d) as [t|]; [|evaluate_report].
      destruct t as [| | | | [|c s] | [|c rest] | [|b d']];
        try evaluate_report.
      destruct c as [| | | | | | cd]; try evaluate_report.
      cbn [py_len py_getitem length].
      replace (0 <? Z.of_nat (S (length rest)))%Z with true
        by (symmetry; apply Z.ltb_lt; lia).
      unfold ret. rewrite first_position. cbn [nth_error py_getitem].
      rewrite Hshape. evaluate_report.
Qed.

Lemma translate_text_malformed_response_witness :
  malformed_response (replies (PyDict [])) (u "Hello") (u "ES") /\
  exists s w',
    translate_text (replies (PyDict [])) (u "Hello") (u "ES") empty_world =
      (Returns (PyStr s), w') /\
    (startswith (u "[Translation Error: ") s = true \/
     startswith (u "[Error: ") s = true).
Proof.
  assert (H : malformed_response (replies (PyDict [])) (u "Hello") (u "ES")).
  { apply (unexpected_shape _ _ _
             {| status_code := 200; reason := u "OK"; url := API_URL;
                json := Returns (PyDict []) |} (PyDict []));
      [reflexivity | unfold error_status; cbn; lia | reflexivity | reflexivity]. }
  split; [exact H|].
  exact (translate_text_malformed_response (replies (PyDict [])) (u "Hello")
           (u "ES") empty_world H).
Defined.

(** X5: an absent or empty list of candidates is reported as an
    unexpected format, with one printed line. *)
Lemma translate_text_no_candidates (requests_post : http_client)
  (text target_language : pystr) (r : response) (d : list (pystr * pyval))
  (w : world) :
  requests_post API_URL (form_fields text target_language) 10%Z = Returns r ->
  ~ error_status r ->
  json r = Returns (PyDict d) ->
  dict_get (u "translations") d = None \/
  dict_get (u "translations") d = Some (PyList []) ->
  translate_text requests_post text target_language w =
    (Returns (PyStr (u "[Translation Error: Unexpected API response format]")),
     {| trace := trace w ++ [Print (Msg_UnexpectedFormat (PyDict d))];
        files := files w |}).
Proof.
  intros Hpost Hst Hjson Hcands.
  rewrite translate_text_requests. unfold try_except, bind, call.
  rewrite Hpost, (raise_for_status_passes r Hst), Hjson.
  cbn [py_contains py_getitem].
  destruct Hcands as [-> | ->]; reflexivity.
Qed.

(** A first candidate whose text is not a string is returned as it is. *)
Lemma translate_text_non_string_text :
  translate_text
    (replies (PyDict [(u "translations",
                       PyList [PyDict [(u "text", PyInt 5)]])]))
    (u "Hello") (u "ES") empty_world
  = (Returns (PyInt 5), empty_world).
Proof. vm_compute. reflexivity. Qed.

(** C1, as the specification has it, fails: two malformed answers are
    reported with different markers.  A body without candidates gives a
    string that begins with ["[Translation Error: "]; a body whose
    candidate has no text gives ["[Error: 'text']"]; all that the two
    strings share at their beginning is the bracket. *)
Lemma translate_text_no_single_marker :
  malformed_response (replies (PyDict [])) (u "Hello") (u "ES") /\
  malformed_response (replies body_without_text) (u "Hello") (u "ES") /\
  fst (translate_text (replies (PyDict [])) (u "Hello") (u "ES") empty_world)
    = Returns (PyStr (u "[Translation Error: Unexpected API response format]")) /\
  fst (translate_text (replies body_without_text) (u "Hello") (u "ES")
         empty_world)
    = Returns (PyStr (u "[Error: 'text']")) /\
  startswith (u "[Translation Error") (u "[Error: 'text']") = false /\
  forall marker,
    startswith marker
      (u "[Translation Error: Unexpected API response format]") = true ->
    startswith marker (u "[Error: 'text']") = true ->
    marker = [] \/ marker = u "[".
Proof.
  split.
  { apply (unexpected_shape _ _ _
             {| status_code := 200; reason := u "OK"; url := API_URL;
                json := Returns (PyDict []) |} (PyDict []));
      [reflexivity | unfold error_status; cbn; lia | reflexivity | reflexivity]. }
  split.
  { apply (unexpected_shape _ _ _
             {| status_code := 200; reason := u "OK"; url := API_URL;
                json := Returns body_without_text |} body_without_text);
      [reflexivity | unfold error_status; cbn; lia | reflexivity | reflexivity]. }
  split; [vm_compute; reflexivity|].
  split; [vm_compute; reflexivity|].
  split; [vm_compute; reflexivity|].
  intros [|a [|b m]] H1 H2.
  - left. reflexivity.
  - right. cbn in H1. rewrite andb_true_r in H1.
    apply N.eqb_eq in H1. subst a. reflexivity.
  - exfalso. cbn in H1, H2.
    apply andb_true_iff in H1. destruct H1 as [_ H1].
    apply andb_true_iff in H1. destruct H1 as [H1 _].
    apply andb_true_iff in H2. destruct H2 as [_ H2].
    apply andb_true_iff in H2. destruct H2 as [H2 _].
    apply N.eqb_eq in H1, H2. subst b. discriminate.
Qed.


(** The scenario of the driver: the text ["Hello, how are you today?"]
    and the tag ["ES"], with an endpoint that answers with one candidate
    (an inverted question mark, [Como estas hoy] with its two accents, a
    question mark); the translation is the candidate, and normalising it
    lowers it and strips the accents. *)
Lemma translation_then_normalization :
  let candidate := [191%N] ++ u "C" ++ [243%N] ++ u "mo est" ++ [225%N]
                   ++ u "s hoy?" in
  let body := PyDict [(u "translations",
                       PyList [PyDict [(u "text", PyStr candidate)]])] in
  fst (translate_text (replies body) (u "Hello, how are you today?") (u "ES")
         empty_world) = Returns (PyStr candidate) /\
  normalize_text UCD.library (Some candidate)
    = Some ([191%N] ++ u "como estas hoy?").
Proof. split; vm_compute; reflexivity. Qed.

(** ** Voice capture *)

(** C6: once the microphone is open and calibrated, each of the three
    failures (no speech before the wait ends, speech that is not
    understood, a failing recognition service) makes [capture_user_voice]
    return [None]; nothing is raised, and the microphone is released. *)
Theorem capture_user_voice_failure (sr : speech_library) (language : pystr)
  (w : world) :
  Microphone_enter sr = Returns tt ->
  adjust_for_ambient_noise sr = Returns tt ->
  recognition_failure sr language ->
  exists w',
    capture_user_voice sr language w = (Returns None, w') /\
    In MicrophoneClosed (trace w').
Proof.
  intros Hmic Hadj Hfail.
  unfold capture_user_voice, try_finally, try_except, bind, call.
  rewrite Hmic. cbn [emit print]. rewrite Hadj.
  destruct Hfail as [e Hl He | audio e Hl Hr He | audio e Hl Hr He];
    rewrite Hl; cbn [find_handler emit print ret trace files].
  - rewrite He. cbn [emit print ret trace files].
    eexists. split; [reflexivity|]. cbn [trace].
    rewrite !in_app_iff. simpl. tauto.
  - rewrite Hr. cbn [find_handler]. rewrite He. cbn [emit print ret trace files].
    eexists. split; [reflexivity|]. cbn [trace].
    rewrite !in_app_iff. simpl. tauto.
  - rewrite Hr. cbn [find_handler].
    destruct (isinstance e sr_UnknownValueError); [|rewrite He];
      cbn [emit print ret trace files];
      (eexists; split; [reflexivity|]); cbn [trace];
      rewrite !in_app_iff; simpl; tauto.
Qed.

Lemma capture_user_voice_failure_witness :
  recognition_failure silent_room default_language /\
  exists w',
    capture_user_voice silent_room default_language empty_world =
      (Returns None, w') /\
    In MicrophoneClosed (trace w').
Proof.
  assert (H : recognition_failure silent_room default_language)
    by (eapply no_speech_detected; reflexivity).
  split; [exact H|].
  exact (capture_user_voice_failure silent_room default_language empty_world
           eq_refl eq_refl H).
Defined.


(** X6: when recognition succeeds the recognised text is returned. *)
Lemma capture_user_voice_recognized (sr : speech_library)
  (language user_text : pystr) (audio : audio_data) (w : world) :
  Microphone_enter sr = Returns tt ->
  adjust_for_ambient_noise sr = Returns tt ->
  listen sr = Returns audio ->
  recognize_google sr audio language = Returns user_text ->
  exists w', capture_user_voice sr language w = (Returns (Some user_text), w').
Proof.
  intros Hmic Hadj Hl Hr.
  unfold capture_user_voice, try_finally, try_except, bind, call.
  rewrite Hmic. cbn [emit print]. rewrite Hadj, Hl.
  cbn [emit print ret trace files]. rewrite Hr.
  eexists. reflexivity.
Qed.

(** X7: without a microphone the error reaches the caller, and nothing is
    printed. *)
Lemma capture_user_voice_no_microphone (sr : speech_library)
  (language : pystr) (e : exn) (w : world) :
  Microphone_enter sr = Raises e ->
  capture_user_voice sr language w = (Raises e, w).
Proof.
  intros Hmic. unfold capture_user_voice, bind, call. now rewrite Hmic.
Qed.

(** ** Speech synthesis and playback *)

Section Behaviour.

Context {A B : Type}.

Lemma well_behaved_ret (a : A) : well_behaved (ret a).
Proof. intros w. split; [exists []; simpl; now rewrite app_nil_r | exact I]. Qed.

Lemma well_behaved_call (o : outcome A) :
  raises_errors_only o -> well_behaved (call o).
Proof.
  intros H w. split; [exists []; simpl; now rewrite app_nil_r | exact H].
Qed.

Lemma well_behaved_bind (m : M A) (k : A -> M B) :
  well_behaved m -> (forall a, well_behaved (k a)) -> well_behaved (bind m k).
Proof.
  intros Hm Hk w. unfold bind.
  destruct (Hm w) as [[evs Hevs] Hr].
  destruct (m w) as [[a|e] w1]; cbn [fst snd] in *.
  - destruct (Hk a w1) as [[evs' Hevs'] Hr'].
    split; [|exact Hr'].
    exists (evs ++ evs'). now rewrite Hevs', Hevs, app_assoc.
  - split; [exists evs; exact Hevs | exact Hr].
Qed.

Lemma never_raises_ret (a : A) : never_raises (ret a).
Proof. intros w. exists a, w, []. split; [reflexivity | now rewrite app_nil_r]. Qed.

Lemma never_raises_bind (m : M A) (k : A -> M B) :
  never_raises m -> (forall a, never_raises (k a)) -> never_raises (bind m k).
Proof.
  intros Hm Hk w. unfold bind.
  destruct (Hm w) as (a & w1 & evs & -> & Hevs).
  destruct (Hk a w1) as (b & w2 & evs' & -> & Hevs').
  exists b, w2, (evs ++ evs'). split; [reflexivity|].
  now rewrite Hevs', Hevs, app_assoc.
Qed.

Lemma never_raises_well_behaved (m : M A) : never_raises m -> well_behaved m.
Proof.
  intros Hm w. destruct (Hm w) as (a & w1 & evs & -> & Hevs).
  split; [exists evs; exact Hevs | exact I].
Qed.

(** An [except Exception] clause that does not raise catches every error. *)
Lemma never_raises_try_except (m : M A) (h : exn -> M A) :
  well_behaved m -> (forall e, never_raises (h e)) ->
  never_raises (try_except m [(Exception, h)]).
Proof.
  intros Hm Hh w. unfold try_except.
  destruct (Hm w) as [[evs Hevs] Hr].
  destruct (m w) as [[a|e] w1]; cbn [fst snd] in *.
  - exists a, w1, evs. split; [reflexivity | exact Hevs].
  - cbn [find_handler]. rewrite Hr.
    destruct (Hh e w1) as (b & w2 & evs' & -> & Hevs').
    exists b, w2, (evs ++ evs'). split; [reflexivity|].
    now rewrite Hevs', Hevs, app_assoc.
Qed.

End Behaviour.

Lemma never_raises_emit (ev : event) : never_raises (emit ev).
Proof. intros w. eexists tt, _, [ev]. split; reflexivity. Qed.

Lemma never_raises_print (m : message) : never_raises (print m).
Proof. apply never_raises_emit. Qed.

Lemma never_raises_sleep (ms : Z) : never_raises (sleep ms).
Proof. apply never_raises_emit. Qed.

Lemma well_behaved_emit (ev : event) : well_behaved (emit ev).
Proof. apply never_raises_well_behaved, never_raises_emit. Qed.

Lemma well_behaved_wait_while_busy (answers : list (outcome bool)) :
  Forall raises_errors_only answers -> well_behaved (wait_while_busy answers).
Proof.
  induction 1 as [|a rest Ha _ IH]; cbn [wait_while_busy].
  - apply well_behaved_ret.
  - apply well_behaved_bind; [now apply well_behaved_call|].
    intros [|]; [|apply well_behaved_ret].
    apply well_behaved_bind; [apply well_behaved_emit | intros _; exact IH].
Qed.

Lemma well_behaved_save_file (p : platform) (path : pystr) :
  raises_errors_only (tts_save p path) -> well_behaved (save_file p path).
Proof.
  intros H w. unfold save_file.
  destruct (tts_save p path); cbn [fst snd trace];
    (split; [eexists; reflexivity | exact H]).
Qed.

Lemma well_behaved_remove_file (p : platform) (path : pystr) :
  raises_errors_only (os_remove p path) -> well_behaved (remove_file p path).
Proof.
  intros H w. unfold remove_file.
  destruct (os_remove p path); cbn [fst snd trace];
    (split; [eexists; reflexivity | exact H]).
Qed.

Lemma never_raises_play_with_pygame (p : platform) (temp_filename : pystr) :
  failures_are_errors p -> never_raises (play_with_pygame p temp_filename).
Proof.
  intros E. unfold play_with_pygame.
  apply never_raises_try_except.
  - repeat (apply well_behaved_bind; [|intros ?]);
      try (apply well_behaved_call; apply E);
      try apply well_behaved_emit.
    apply well_behaved_wait_while_busy, E.
  - intros e. apply never_raises_bind; [apply never_raises_print | intros _].
    apply never_raises_try_except; [|intros; apply never_raises_print].
    repeat (apply well_behaved_bind; [|intros ?]);
      try (apply well_behaved_call; apply E);
      apply well_behaved_emit.
Qed.

Lemma str_truth_app_r (a b : pystr) :
  str_truth b = true -> str_truth (a ++ b) = true.
Proof. destruct a; [trivial | reflexivity]. Qed.

Lemma os_path_join_nonempty (p : platform) (a b : pystr) :
  str_truth b = true -> str_truth (os_path_join p a b) = true.
Proof.
  intros Hb. unfold os_path_join.
  repeat match goal with |- context [if ?c then _ else _] => destruct c end;
    repeat (apply str_truth_app_r); try assumption; reflexivity.
Qed.

Lemma name_temp_file_nonempty (p : platform) (f : pystr) :
  name_temp_file p = Returns f -> str_truth f = true.
Proof.
  unfold name_temp_file. destruct (gettempdir p); [|discriminate].
  intros H. injection H. intros <-. apply os_path_join_nonempty. reflexivity.
Qed.

(** The [finally] block: the file is removed if it is there; a removal
    that fails is printed and goes no further. *)
Lemma clean_up_removes (p : platform) (f : pystr) (w : world) :
  str_truth f = true ->
  raises_errors_only (os_remove p f) ->
  exists w',
    clean_up p (Some f) w = (Returns tt, w') /\
    ((os_remove p f = Returns tt /\ (f ∉ files w') /\
      trace w' = trace w ++ [Sleep 1000; RemoveCalled f]) \/
     (exists e, os_remove p f = Raises e /\
      trace w' = trace w ++ [Sleep 1000; RemoveCalled f;
                             Print (Msg_RemoveError e)]) \/
     ((f ∉ files w') /\ w' = w)).
Proof.
  intros Hf Hrm. unfold clean_up. rewrite Hf.
  unfold bind at 1. unfold os_path_exists.
  destruct (bool_decide (f ∈ files w)) eqn:Ein.
  - unfold try_except, bind, sleep, emit, remove_file. cbn [trace files].
    destruct (os_remove p f) as [[]|e] eqn:Erm.
    + eexists. split; [reflexivity|]. left. split; [reflexivity|].
      cbn [files trace].
      split; [intros [_ H]%elem_of_difference; apply H; now apply elem_of_singleton|].
      now rewrite <- app_assoc.
    + cbn [find_handler]. cbn [raises_errors_only] in Hrm. rewrite Hrm.
      unfold print, emit. cbn [trace files].
      eexists. split; [reflexivity|]. right. left. exists e.
      split; [reflexivity|]. cbn [trace]. now rewrite <- !app_assoc.
  - apply bool_decide_eq_false in Ein.
    exists w. split; [reflexivity|]. right. right. split; [exact Ein | reflexivity].
Qed.

(** The [try] block with its [except Exception] clause never raises. *)
Lemma never_raises_synthesis_and_playback (p : platform)
  (text language : pystr) :
  failures_are_errors p ->
  never_raises
    (try_except
       (let* temp_filename := call (name_temp_file p) in
        let* _ := call (gTTS p text language) in
        let* _ := save_file p temp_filename in
        let* _ := sleep 500 in
        if is_posix p then
          let* _ := emit (Command (u "mpg123 -q " ++ temp_filename)) in
          let* _ := ret (os_system p (u "mpg123 -q " ++ temp_filename)) in
          ret tt
        else play_with_pygame p temp_filename)
       [ (Exception, fun e => print (Msg_AudioError e)) ]).
Proof.
  intros E. apply never_raises_try_except; [|intros; apply never_raises_print].
  apply well_behaved_bind.
  { apply well_behaved_call. unfold name_temp_file.
    pose proof (gettempdir_error p E) as H.
    destruct (gettempdir p); [exact I | exact H]. }
  intros f.
  apply well_behaved_bind; [apply well_behaved_call, E | intros _].
  apply well_behaved_bind; [apply well_behaved_save_file, E | intros _].
  apply well_behaved_bind; [apply well_behaved_emit | intros _].
  destruct (is_posix p).
  - apply well_behaved_bind; [apply well_behaved_emit | intros _].
    apply well_behaved_bind; [apply well_behaved_ret | intros _].
    apply well_behaved_ret.
  - apply never_raises_well_behaved, never_raises_play_with_pygame, E.
Qed.

(** C7: whatever the text and the language, and whichever of synthesis,
    file write, playback and file delete fail, [play_audio] returns
    without raising.  The last thing it does is to remove the transient
    file; a removal that fails is printed and goes no further; when there
    is no file at that point there is nothing to remove. *)
Theorem play_audio_cleans_up (p : platform) (text language : pystr)
  (debug : bool) (w : world) :
  failures_are_errors p ->
  exists w',
    play_audio p text language debug w = (Returns tt, w') /\
    match name_temp_file p with
    | Returns f =>
        (exists evs, os_remove p f = Returns tt /\ (f ∉ files w') /\
           trace w' = trace w ++ evs ++ [Sleep 1000; RemoveCalled f]) \/
        (exists evs e, os_remove p f = Raises e /\
           trace w' = trace w ++ evs ++ [Sleep 1000; RemoveCalled f;
                                         Print (Msg_RemoveError e)]) \/
        (f ∉ files w')
    | Raises _ => files w' = files w
    end.
Proof.
  intros E. unfold play_audio.
  assert (Hdebug : never_raises
            (if debug
             then print (Msg_Speaking language (firstn 30 text)
                           (30 <? length text)%nat)
             else ret tt)).
  { destruct debug; [apply never_raises_print | apply never_raises_ret]. }
  assert (Hfiles0 : forall w0, files (snd ((if debug
             then print (Msg_Speaking language (firstn 30 text)
                           (30 <? length text)%nat)
             else ret tt) w0)) = files w0).
  { intros w0. destruct debug; reflexivity. }
  unfold bind at 1.
  destruct (Hdebug w) as ([] & w0 & evs0 & Hrun0 & Htr0).
  specialize (Hfiles0 w). rewrite Hrun0 in *. cbn [snd] in Hfiles0.
  unfold try_finally.
  destruct (never_raises_synthesis_and_playback p text language E w0)
    as ([] & w1 & evs1 & Hrun1 & Htr1).
  destruct (name_temp_file p) as [f|e] eqn:Ename.
  - rewrite Hrun1.
    destruct (clean_up_removes p f w1 (name_temp_file_nonempty p f Ename)
                (os_remove_error p E f))
      as (w2 & Hrun2 & Hcases).
    rewrite Hrun2. exists w2. split; [reflexivity|].
    destruct Hcases as [(Hrm & Hout & Htr2) | [(e & Hrm & Htr2) | (Hout & _)]].
    + left. exists (evs0 ++ evs1). repeat split; try assumption.
      rewrite Htr2, Htr1, Htr0. now rewrite <- !app_assoc.
    + right. left. exists (evs0 ++ evs1), e. split; [assumption|].
      rewrite Htr2, Htr1, Htr0. now rewrite <- !app_assoc.
    + right. right. exact Hout.
  - clear Hrun1 Htr1.
    unfold try_except, bind, call, clean_up, print, emit, ret.
    cbn [find_handler].
    assert (He : isinstance e Exception = true).
    { pose proof (gettempdir_error p E) as H. unfold name_temp_file in Ename.
      destruct (gettempdir p); [discriminate|]. injection Ename as <-. exact H. }
    rewrite He. eexists. split; [reflexivity|]. cbn [files]. exact Hfiles0.
Qed.

Lemma linux_machine_failures : failures_are_errors linux_machine.
Proof. constructor; intros; try exact I. constructor. Defined.

Lemma play_audio_cleans_up_witness :
  failures_are_errors linux_machine /\
  exists w',
    play_audio linux_machine (u "Hola") (u "es") true empty_world =
      (Returns tt, w') /\
    match name_temp_file linux_machine with
    | Returns f =>
        (exists evs, os_remove linux_machine f = Returns tt /\
           (f ∉ files w') /\
           trace w' = trace empty_world ++ evs
                      ++ [Sleep 1000; RemoveCalled f]) \/
        (exists evs e, os_remove linux_machine f = Raises e /\
           trace w' = trace empty_world ++ evs
                      ++ [Sleep 1000; RemoveCalled f;
                          Print (Msg_RemoveError e)]) \/
        (f ∉ files w')
    | Raises _ => files w' = files empty_world
    end.
Proof.
  split; [exact linux_machine_failures|].
  exact (play_audio_cleans_up linux_machine (u "Hola") (u "es") true
           empty_world linux_machine_failures).
Defined.

(** A run in which everything succeeds: the file is written, played and
    removed, in this order. *)
Lemma play_audio_on_linux :
  trace (snd (play_audio linux_machine (u "Hola") (u "es") true empty_world)) =
  [ Print (Msg_Speaking (u "es") (u "Hola") false);
    SaveCalled (u "/tmp/speech_1700000000.mp3");
    Sleep 500;
    Command (u "mpg123 -q /tmp/speech_1700000000.mp3");
    Sleep 1000;
    RemoveCalled (u "/tmp/speech_1700000000.mp3") ].
Proof. vm_compute. reflexivity. Qed.


(** ** Running a function on a thread of its own *)

Section ThreadFacts.

Context {Arg Val : Type}.
Implicit Types (s : process Val) (st : thread_state Val) (t : nat).

Lemma calls_of_app t s (extra : list (nat * Val)) :
  List.map snd (List.filter (fun c => Nat.eqb (fst c) t)
                  (callback_calls s ++ extra)) =
  calls_of t s ++
  List.map snd (List.filter (fun c => Nat.eqb (fst c) t) extra).
Proof. unfold calls_of. now rewrite List.filter_app, List.map_app. Qed.

(** A step of another thread changes neither the state of thread [t] nor
    the calls it made. *)
Lemma schedule_other t t' s :
  t' <> t ->
  threads (schedule t' s) !! t = threads s !! t /\
  calls_of t (schedule t' s) = calls_of t s.
Proof.
  intros Hne. unfold schedule.
  destruct (threads s !! t') as [st|]; [|split; reflexivity].
  destruct (thread_step st) as [st' called]. cbn [threads].
  split; [now apply lookup_insert_ne|].
  destruct called as [v|]; [|reflexivity].
  unfold calls_of at 1. cbn [callback_calls].
  rewrite calls_of_app. cbn [List.filter fst].
  destruct (Nat.eqb_spec t' t); [contradiction|].
  apply app_nil_r.
Qed.

(** A step of thread [t] itself. *)
Lemma schedule_self t s st :
  threads s !! t = Some st ->
  threads (schedule t s) !! t = Some (fst (thread_step st)) /\
  calls_of t (schedule t s) =
    calls_of t s ++ match snd (thread_step st) with
                    | Some v => [v]
                    | None => []
                    end.
Proof.
  intros Hst. unfold schedule. rewrite Hst.
  destruct (thread_step st) as [st' called]. cbn [threads fst snd].
  split; [apply lookup_insert_eq|].
  destruct called as [v|]; [|now rewrite app_nil_r].
  unfold calls_of at 1. cbn [callback_calls].
  rewrite calls_of_app. cbn [List.filter fst].
  rewrite Nat.eqb_refl. reflexivity.
Qed.

(** Whatever the order, thread [t] is where as many steps of its own as
    the order gives it take it. *)
Lemma run_thread t (order : list nat) s st :
  threads s !! t = Some st ->
  threads (run order s) !! t =
    Some (fst (thread_run (count_occ Nat.eq_dec order t) st)) /\
  calls_of t (run order s) =
    calls_of t s ++ snd (thread_run (count_occ Nat.eq_dec order t) st).
Proof.
  revert s st. induction order as [|t' order IH]; intros s st Hst.
  - cbn. split; [exact Hst | now rewrite app_nil_r].
  - cbn [run List.fold_left count_occ].
    destruct (Nat.eq_dec t' t) as [->|Hne].
    + destruct (schedule_self t s st Hst) as [Hst' Hcalls'].
      destruct (IH _ _ Hst') as [IH1 IH2]. unfold run in IH1, IH2.
      rewrite IH1, IH2, Hcalls'. cbn [thread_run].
      destruct (thread_step st) as [st1 called]. cbn [fst snd].
      destruct (thread_run (count_occ Nat.eq_dec order t) st1) as [st2 calls].
      cbn [fst snd]. split; [reflexivity|].
      rewrite <- app_assoc. destruct called; reflexivity.
    + destruct (schedule_other t t' s Hne) as [Hst' Hcalls'].
      rewrite <- Hst' in Hst.
      destruct (IH _ _ Hst) as [IH1 IH2]. unfold run in IH1, IH2.
      rewrite IH1, IH2, Hcalls'. split; reflexivity.
Qed.

(** Once the callback has been called, the thread calls nothing more. *)
Lemma thread_run_after_call (k : nat) st :
  match st with InFunc _ _ => False | _ => True end ->
  snd (thread_run k st) = [].
Proof.
  revert st. induction k as [|k IH]; intros st Hst; [reflexivity|].
  cbn [thread_run].
  destruct st as [b cb | v [[|n] [[]|e] |] | | e]; try contradiction;
    cbn [thread_step];
    match goal with
    | |- context [thread_run k ?st'] =>
        specialize (IH st' I); destruct (thread_run k st'); exact IH
    end.
Qed.

(** A function that returns [v] after [n] steps: the thread calls the
    callback with [v] on its step number [n + 1], and at no other step. *)
Lemma thread_run_returning (k n : nat) (v : Val) (cb : Val -> behaviour unit) :
  snd (thread_run k (InFunc (Finishes _ n (Returns v)) (Some cb))) =
  if (n <? k)%nat then [v] else [].
Proof.
  revert k. induction n as [|n IH]; intros [|k]; try reflexivity.
  - cbn [thread_run thread_step].
    pose proof (thread_run_after_call k (InCallback v (cb v)) I) as H.
    destruct (thread_run k (InCallback v (cb v))). cbn [snd] in *.
    now rewrite H.
  - cbn [thread_run thread_step]. specialize (IH k).
    destruct (thread_run k _) as [st calls]. cbn [snd] in *.
    rewrite IH. reflexivity.
Qed.

(** A function that raises or never ends: the callback is never called. *)
Lemma thread_run_not_returning (k : nat) (b : behaviour Val)
  (cb : option (Val -> behaviour unit)) :
  (forall n v, b <> Finishes _ n (Returns v)) ->
  snd (thread_run k (InFunc b cb)) = [].
Proof.
  revert b. induction k as [|k IH]; intros b Hb; [reflexivity|].
  cbn [thread_run].
  destruct b as [[|n] [v|e] |]; cbn [thread_step].
  - exfalso. exact (Hb _ _ eq_refl).
  - pose proof (thread_run_after_call k (Died e) I) as H.
    destruct cb; destruct (thread_run k (Died e)); exact H.
  - assert (H : forall n' v', Finishes Val n (Returns v) <> Finishes _ n' (Returns v')).
    { intros n' v' E. apply (Hb (S n') v'). congruence. }
    specialize (IH _ H). destruct (thread_run k _). exact IH.
  - assert (H : forall n' v', Finishes Val n (Raises e) <> Finishes _ n' (Returns v'))
      by (intros; discriminate).
    specialize (IH _ H). destruct (thread_run k _). exact IH.
  - assert (H : forall n' v', Diverges Val <> Finishes _ n' (Returns v'))
      by (intros; discriminate).
    specialize (IH _ H). destruct (thread_run k _). exact IH.
Qed.

Lemma calls_of_fresh s :
  fresh_idents s -> calls_of (next_ident s) s = [].
Proof.
  intros [_ Hcalls]. unfold calls_of.
  induction (callback_calls s) as [|[t v] l IH]; [reflexivity|].
  cbn [List.filter fst].
  destruct (Nat.eqb_spec t (next_ident s)) as [->|_].
  - specialize (Hcalls (next_ident s) v (or_introl eq_refl)). lia.
  - apply IH. intros t' v' Hin. apply (Hcalls t' v'). now right.
Qed.

Lemma run_in_thread_starts (callback : option (Val -> behaviour unit))
  (func : Arg -> behaviour Val) (args : Arg) s :
  run_in_thread callback func args s =
  (None, Thread_start (InFunc (func args) callback) s).
Proof. destruct callback; reflexivity. Qed.

(** The wrapper returns [None] at once: it starts one new thread, on
    which nothing of the function has run yet, however long the function
    takes, and calls no callback itself.  With a callback, and a function
    that returns [v], the new thread calls the callback at most once
    whatever the scheduler does, with [v], and exactly once as soon as the
    thread has been given one step more than the function takes. *)
Theorem run_in_thread_fire_and_forget
  (callback : option (Val -> behaviour unit))
  (func : Arg -> behaviour Val) (args : Arg) s :
  fresh_idents s ->
  let t := next_ident s in
  let s1 := snd (run_in_thread callback func args s) in
  fst (run_in_thread callback func args s) = None /\
  threads s !! t = None /\
  threads s1 = <[t := InFunc (func args) callback]> (threads s) /\
  callback_calls s1 = callback_calls s /\
  forall cb n v,
    callback = Some cb ->
    func args = Finishes _ n (Returns v) ->
    forall order : list nat,
      (calls_of t (run order s1) = [] \/ calls_of t (run order s1) = [v]) /\
      (n < count_occ Nat.eq_dec order t -> calls_of t (run order s1) = [v]).
Proof.
  intros Hfresh t s1. subst s1. rewrite run_in_thread_starts. cbn [fst snd].
  split; [reflexivity|].
  split; [apply Hfresh; subst t; lia|].
  split; [reflexivity|].
  split; [reflexivity|].
  intros cb n v -> Hret order.
  assert (Hst : threads (Thread_start (InFunc (func args) (Some cb)) s) !! t
                = Some (InFunc (func args) (Some cb)))
    by apply lookup_insert_eq.
  destruct (run_thread t order _ _ Hst) as [_ Hcalls].
  assert (Hnone : calls_of t (Thread_start (InFunc (func args) (Some cb)) s) = [])
    by (exact (calls_of_fresh s Hfresh)).
  rewrite Hcalls, Hnone, Hret, thread_run_returning. cbn [app].
  destruct (Nat.ltb_spec n (count_occ Nat.eq_dec order t)).
  - split; [right; reflexivity | reflexivity].
  - split; [left; reflexivity | lia].
Qed.

(** X21: when the function raises or never ends, the callback is never
    called. *)
Lemma run_in_thread_no_result
  (callback : option (Val -> behaviour unit))
  (func : Arg -> behaviour Val) (args : Arg) s (order : list nat) :
  fresh_idents s ->
  (forall n v, func args <> Finishes _ n (Returns v)) ->
  calls_of (next_ident s)
    (run order (snd (run_in_thread callback func args s))) = [].
Proof.
  intros Hfresh Hno. rewrite run_in_thread_starts. cbn [snd].
  assert (Hst : threads (Thread_start (InFunc (func args) callback) s)
                  !! next_ident s
                = Some (InFunc (func args) callback))
    by apply lookup_insert_eq.
  destruct (run_thread (next_ident s) order _ _ Hst) as [_ Hcalls].
  rewrite Hcalls, thread_run_not_returning by exact Hno.
  rewrite app_nil_r. exact (calls_of_fresh s Hfresh).
Qed.

End ThreadFacts.

Lemma idle_process_fresh : fresh_idents idle_process.
Proof.
  split.
  - intros t _. apply lookup_empty.
  - intros t v [].
Defined.

Lemma run_in_thread_fire_and_forget_witness :
  fresh_idents idle_process /\
  fst (run_in_thread (Some notify) successor 5 idle_process) = None /\
  calls_of 1
    (run [1; 1; 1] (snd (run_in_thread (Some notify) successor 5 idle_process)))
  = [6].
Proof.
  split; [exact idle_process_fresh|].
  destruct (run_in_thread_fire_and_forget (Some notify) successor 5
              idle_process idle_process_fresh)
    as (Hnone & _ & _ & _ & Hcall).
  split; [exact Hnone|].
  destruct (Hcall notify 2 6 eq_refl eq_refl [1; 1; 1]) as [_ Honce].
  apply Honce. cbn. lia.
Defined.

(** * Part III: further properties *)

(** ** Translation: every way a call can end *)

Lemma raise_for_status_cases (r : response) :
  (raise_for_status r = Returns tt /\ ~ error_status r) \/
  (exists e, raise_for_status r = Raises e /\
             exc_type e = requests_HTTPError /\ error_status r).
Proof.
  destruct (Z_le_dec 400 (status_code r)) as [Hlo|Hlo];
    [destruct (Z_lt_dec (status_code r) 600) as [Hhi|Hhi]|].
  - right. assert (H : error_status r) by (unfold error_status; lia).
    destruct (raise_for_status_raises r H) as (e & He & Hty).
    exists e. auto.
  - left. assert (H : ~ error_status r) by (unfold error_status; lia).
    split; [now apply raise_for_status_passes | exact H].
  - left. assert (H : ~ error_status r) by (unfold error_status; lia).
    split; [now apply raise_for_status_passes | exact H].
Qed.

Lemma RequestException_is_Exception (e : exn) :
  isinstance e RequestException = true -> isinstance e Exception = true.
Proof.
  unfold isinstance. destruct (exc_type e); vm_compute; congruence.
Qed.

(** A decoded body without a first candidate text: one line is printed and
    an error report is returned. *)
Lemma translate_text_shape_report (requests_post : http_client)
  (text target_language : pystr) (r : response) (data : pyval) (w : world) :
  requests_post API_URL (form_fields text target_language) 10%Z = Returns r ->
  ~ error_status r ->
  json r = Returns data ->
  first_candidate_text data = None ->
  exists s m,
    translate_text requests_post text target_language w =
      (Returns (PyStr s),
       {| trace := trace w ++ [Print m]; files := files w |}) /\
    (startswith (u "[Translation Error: ") s = true \/
     startswith (u "[Error: ") s = true).
Proof.
  intros Hpost Hst Hjson Hshape.
  rewrite translate_text_requests. unfold try_except, bind, call.
  rewrite Hpost, (raise_for_status_passes r Hst), Hjson.
  assert (Hone : forall n, (0 <? Z.of_nat (S n))%Z = true)
    by (intros; apply Z.ltb_lt; lia).
  destruct data as [| | | | s | l | d]; cbn [py_contains].
  1-4: do 2 eexists; (split; [reflexivity|]); right; reflexivity.
  - destruct (occurs_in (u "translations") s);
      do 2 eexists; (split; [reflexivity|]);
      first [left; reflexivity | right; reflexivity].
  - destruct (existsb (eq_str (u "translations")) l);
      do 2 eexists; (split; [reflexivity|]);
      first [left; reflexivity | right; reflexivity].
  - cbn [first_candidate_text] in Hshape. cbn [py_getitem].
    destruct (dict_get (u "translations") d) as [t|];
      [|do 2 eexists; (split; [reflexivity|]); left; reflexivity].
    destruct t as [| | | | [|c s] | [|c rest] | [|b d']];
      try (do 2 eexists; (split; [reflexivity|]);
           first [left; reflexivity | right; reflexivity]).
    destruct c as [| | | | | | cd];
      try (do 2 eexists; (split; [reflexivity|]);
           first [left; reflexivity | right; reflexivity]).
    cbn [py_len py_getitem length]. rewrite Hone.
    unfold ret. rewrite first_position. cbn [nth_error py_getitem].
    rewrite Hshape.
    do 2 eexists; (split; [reflexivity|]); right; reflexivity.
Qed.

Lemma translate_text_result_holds (requests_post : http_client)
  (text target_language : pystr) (w : world) :
  translate_text_result requests_post text target_language w
    (translate_text requests_post text target_language w).
Proof.
  unfold translate_text_result.
  assert (Hhandled : forall e : exn,
    isinstance e Exception = true ->
    exists s m,
      match
        find_handler e
          [ (RequestException, fun e =>
               let* _ := print (Msg_ApiRequestError e) in
               ret (PyStr (u "[Translation Error: " ++ exc_str e ++ u "]")));
            (Exception, fun e =>
               let* _ := print (Msg_GeneralError e) in
               ret (PyStr (u "[Error: " ++ exc_str e ++ u "]"))) ]
      with
      | Some h => h e w
      | None => (Raises e, w)
      end = (Returns (PyStr s),
             {| trace := trace w ++ [Print m]; files := files w |}) /\
      (startswith (u "[Translation Error: ") s = true \/
       startswith (u "[Error: ") s = true)).
  { intros e He. cbn [find_handler].
    destruct (isinstance e RequestException); [|rewrite He];
      do 2 eexists; (split; [reflexivity|]).
    - left. apply startswith_app.
    - right. apply startswith_app. }
  assert (Hreport : forall s m,
    translate_text requests_post text target_language w =
      (Returns (PyStr s), {| trace := trace w ++ [Print m]; files := files w |}) ->
    startswith (u "[Translation Error: ") s = true \/
    startswith (u "[Error: ") s = true ->
    files (snd (translate_text requests_post text target_language w)) = files w /\
    (trace (snd (translate_text requests_post text target_language w)) = trace w \/
     exists m, trace (snd (translate_text requests_post text target_language w))
               = trace w ++ [Print m]) /\
    match fst (translate_text requests_post text target_language w) with
    | Returns v =>
        error_report v \/
        exists r data,
          requests_post API_URL (form_fields text target_language) 10%Z
            = Returns r /\
          ~ error_status r /\ json r = Returns data /\
          first_candidate_text data = Some v
    | Raises e =>
        isinstance e Exception = false /\
        (requests_post API_URL (form_fields text target_language) 10%Z
           = Raises e \/
         exists r,
           requests_post API_URL (form_fields text target_language) 10%Z
             = Returns r /\ json r = Raises e)
    end).
  { intros s m -> Hs. cbn [fst snd files trace].
    split; [reflexivity|]. split; [right; now exists m|].
    left. exists s. auto. }
  destruct (requests_post API_URL (form_fields text target_language) 10%Z)
    as [r|e] eqn:Hpost.
  - destruct (raise_for_status_cases r) as [[Hrs Hst] | (e & Hrs & Hty & Hst)].
    + destruct (json r) as [data|e] eqn:Hjson.
      * destruct (first_candidate_text data) as [v|] eqn:Hfirst.
        -- rewrite (translate_text_decoded _ _ _ r data v w Hpost Hst Hjson Hfirst).
           cbn [fst snd]. split; [reflexivity|]. split; [now left|].
           right. exists r, data. auto.
        -- destruct (translate_text_shape_report _ _ _ r data w Hpost Hst
                       Hjson Hfirst) as (s & m & Hrun & Hs).
           exact (Hreport s m Hrun Hs).
      * destruct (isinstance e Exception) eqn:He.
        -- destruct (Hhandled e He) as (s & m & Hrun & Hs).
           apply (Hreport s m); [|exact Hs].
           rewrite translate_text_requests. unfold try_except, bind, call.
           rewrite Hpost, Hrs, Hjson. exact Hrun.
        -- assert (Hreq : isinstance e RequestException = false).
           { destruct (isinstance e RequestException) eqn:E; [|reflexivity].
             apply RequestException_is_Exception in E. congruence. }
           rewrite translate_text_requests. unfold try_except, bind, call.
           rewrite Hpost, Hrs, Hjson. cbn [find_handler]. rewrite Hreq, He.
           cbn [fst snd]. split; [reflexivity|]. split; [now left|].
           split; [exact He|]. right. exists r. auto.
    + assert (He : isinstance e Exception = true)
        by (unfold isinstance; rewrite Hty; reflexivity).
      destruct (Hhandled e He) as (s & m & Hrun & Hs).
      apply (Hreport s m); [|exact Hs].
      rewrite translate_text_requests. unfold try_except, bind, call.
      rewrite Hpost, Hrs. exact Hrun.
  - destruct (isinstance e Exception) eqn:He.
    + destruct (Hhandled e He) as (s & m & Hrun & Hs).
      apply (Hreport s m); [|exact Hs].
      rewrite translate_text_requests. unfold try_except, bind, call.
      rewrite Hpost. exact Hrun.
    + assert (Hreq : isinstance e RequestException = false).
      { destruct (isinstance e RequestException) eqn:E; [|reflexivity].
        apply RequestException_is_Exception in E. congruence. }
      rewrite translate_text_requests. unfold try_except, bind, call.
      rewrite Hpost. cbn [find_handler]. rewrite Hreq, He.
      cbn [fst snd]. split; [reflexivity|]. split; [now left|].
      split; [exact He|]. now left.
Qed.

(** X1: when the request and the decoding of the body can only fail with
    errors, [translate_text] never raises: it returns an error report, or
    the text of the first candidate of the decoded body. *)
Theorem translate_text_contains_errors (requests_post : http_client)
  (text target_language : pystr) (w : world) :
  client_errors_only requests_post text target_language ->
  exists v w',
    translate_text requests_post text target_language w = (Returns v, w') /\
    (error_report v \/
     exists r data,
       requests_post API_URL (form_fields text target_language) 10%Z
         = Returns r /\
       ~ error_status r /\
       json r = Returns data /\
       first_candidate_text data = Some v).
Proof.
  intros [Hpost Hjson].
  pose proof (translate_text_result_holds requests_post text target_language w)
    as (_ & _ & Hres).
  destruct (translate_text requests_post text target_language w)
    as [[v|e] w'] eqn:Hrun; cbn [fst] in Hres.
  - exists v, w'. split; [reflexivity | exact Hres].
  - exfalso. destruct Hres as [He [Hp | (r & Hp & Hj)]].
    + rewrite Hp in Hpost. unfold raises_errors_only in Hpost. congruence.
    + specialize (Hjson r Hp). rewrite Hj in Hjson.
      unfold raises_errors_only in Hjson. congruence.
Qed.

Lemma translate_text_contains_errors_witness :
  client_errors_only unreachable (u "Hello") (u "ES") /\
  exists v w',
    translate_text unreachable (u "Hello") (u "ES") empty_world
      = (Returns v, w') /\
    (error_report v \/
     exists r data,
       unreachable API_URL (form_fields (u "Hello") (u "ES")) 10%Z
         = Returns r /\
       ~ error_status r /\
       json r = Returns data /\
       first_candidate_text data = Some v).
Proof.
  assert (H : client_errors_only unreachable (u "Hello") (u "ES")).
  { split; [reflexivity | intros r Hr; discriminate Hr]. }
  split; [exact H|].
  exact (translate_text_contains_errors unreachable (u "Hello") (u "ES")
           empty_world H).
Defined.

(** X2: an exception of the client that is not an error (an interrupt, an
    exit) is not turned into a report: it reaches the caller, and nothing
    is printed. *)
Theorem translate_text_passes_interrupts (requests_post : http_client)
  (text target_language : pystr) (e : exn) (w : world) :
  requests_post API_URL (form_fields text target_language) 10%Z = Raises e \/
  (exists r,
     requests_post API_URL (form_fields text target_language) 10%Z
       = Returns r /\
     ~ error_status r /\ json r = Raises e) ->
  isinstance e Exception = false ->
  translate_text requests_post text target_language w = (Raises e, w).
Proof.
  intros Hfail He.
  assert (Hreq : isinstance e RequestException = false).
  { destruct (isinstance e RequestException) eqn:E; [|reflexivity].
    apply RequestException_is_Exception in E. congruence. }
  rewrite translate_text_requests. unfold try_except, bind, call.
  destruct Hfail as [Hpost | (r & Hpost & Hst & Hjson)].
  - rewrite Hpost. cbn [find_handler]. now rewrite Hreq, He.
  - rewrite Hpost, (raise_for_status_passes r Hst), Hjson.
    cbn [find_handler]. now rewrite Hreq, He.
Qed.

Lemma translate_text_passes_interrupts_witness :
  translate_text
    (fun _ _ _ => Raises {| exc_type := KeyboardInterrupt; exc_str := [] |})
    (u "Hello") (u "ES") empty_world
  = (Raises {| exc_type := KeyboardInterrupt; exc_str := [] |}, empty_world).
Proof.
  apply (translate_text_passes_interrupts
           (fun _ _ _ => Raises {| exc_type := KeyboardInterrupt;
                                   exc_str := [] |})
           (u "Hello") (u "ES")
           {| exc_type := KeyboardInterrupt; exc_str := [] |} empty_world);
    [left; reflexivity | reflexivity].
Defined.

(** X3: [translate_text] leaves the files alone and prints at most one
    line, however the call ends. *)
Theorem translate_text_keeps_world (requests_post : http_client)
  (text target_language : pystr) (w : world) :
  files (snd (translate_text requests_post text target_language w)) = files w /\
  (trace (snd (translate_text requests_post text target_language w)) = trace w \/
   exists m,
     trace (snd (translate_text requests_post text target_language w))
       = trace w ++ [Print m]).
Proof.
  pose proof (translate_text_result_holds requests_post text target_language w)
    as (Hfiles & Htrace & _).
  split; assumption.
Qed.

(** X4: only the error statuses count as failures.  With any other
    status, 2xx or not, the result depends on the body alone. *)
Theorem translate_text_other_statuses (post1 post2 : http_client)
  (text target_language : pystr) (r1 r2 : response) (w : world) :
  post1 API_URL (form_fields text target_language) 10%Z = Returns r1 ->
  post2 API_URL (form_fields text target_language) 10%Z = Returns r2 ->
  ~ error_status r1 ->
  ~ error_status r2 ->
  json r1 = json r2 ->
  translate_text post1 text target_language w =
  translate_text post2 text target_language w.
Proof.
  intros H1 H2 Hs1 Hs2 Hjson.
  rewrite !translate_text_requests. unfold try_except, bind, call.
  rewrite H1, H2, (raise_for_status_passes r1 Hs1),
    (raise_for_status_passes r2 Hs2), Hjson.
  reflexivity.
Qed.

Lemma translate_text_other_statuses_witness :
  translate_text
    (fun _ _ _ => Returns {| status_code := 304; reason := u "Not Modified";
                             url := API_URL; json := Returns mocked_body |})
    (u "Hello") (u "ES") empty_world
  = translate_text (replies mocked_body) (u "Hello") (u "ES") empty_world.
Proof.
  apply (translate_text_other_statuses _ _ _ _
           {| status_code := 304; reason := u "Not Modified";
              url := API_URL; json := Returns mocked_body |}
           {| status_code := 200; reason := u "OK";
              url := API_URL; json := Returns mocked_body |});
    [reflexivity | reflexivity | unfold error_status; cbn; lia
    | unfold error_status; cbn; lia | reflexivity].
Defined.

(** A body with an empty list of candidates. *)
Lemma translate_text_no_candidates_witness :
  translate_text (replies (PyDict [(u "translations", PyList [])]))
    (u "Hello") (u "ES") empty_world
  = (Returns (PyStr (u "[Translation Error: Unexpected API response format]")),
     {| trace := [Print (Msg_UnexpectedFormat
                           (PyDict [(u "translations", PyList [])]))];
        files := ∅ |}).
Proof.
  apply (translate_text_no_candidates
           (replies (PyDict [(u "translations", PyList [])]))
           (u "Hello") (u "ES")
           {| status_code := 200; reason := u "OK"; url := API_URL;
              json := Returns (PyDict [(u "translations", PyList [])]) |}
           [(u "translations", PyList [])] empty_world);
    [reflexivity | unfold error_status; cbn; lia | reflexivity
    | right; reflexivity].
Defined.

(** ** Voice capture: what is caught and what is not *)

Lemma microphone_open_app (tr evs : list event) :
  microphone_open (tr ++ evs) =
  List.fold_left
    (fun is_open ev =>
       match ev with
       | MicrophoneOpened => true
       | MicrophoneClosed => false
       | _ => is_open
       end)
    evs (microphone_open tr).
Proof. unfold microphone_open. apply List.fold_left_app. Qed.

Lemma capture_user_voice_recognized_witness :
  exists w',
    capture_user_voice quiet_office default_language empty_world
      = (Returns (Some (u "hello")), w').
Proof.
  exact (capture_user_voice_recognized quiet_office default_language
           (u "hello")
           {| frame_data := [0; 1; 2]%N; sample_rate := 16000;
              sample_width := 2 |}
           empty_world eq_refl eq_refl eq_refl eq_refl).
Defined.

Lemma capture_user_voice_no_microphone_witness :
  capture_user_voice no_microphone default_language empty_world =
  (Raises {| exc_type := OSError;
             exc_str := u "No Default Input Device Available" |},
   empty_world).
Proof.
  exact (capture_user_voice_no_microphone no_microphone default_language
           _ empty_world eq_refl).
Defined.

(** X8: a text is returned only when the recogniser gave it: there is no
    other source of a result. *)
Theorem capture_user_voice_sound (sr : speech_library)
  (language user_text : pystr) (w w' : world) :
  capture_user_voice sr language w = (Returns (Some user_text), w') ->
  exists audio,
    listen sr = Returns audio /\
    recognize_google sr audio language = Returns user_text.
Proof.
  unfold capture_user_voice, try_finally, try_except, bind, call, ret.
  destruct (Microphone_enter sr) as [[]|e0]; [|discriminate].
  cbn [emit print].
  destruct (adjust_for_ambient_noise sr) as [[]|e1];
    cbn [emit print trace files]; [|discriminate].
  destruct (listen sr) as [audio|e2] eqn:Hl;
    cbn [find_handler emit print trace files].
  - destruct (recognize_google sr audio language) as [t|e3] eqn:Hr;
      cbn [find_handler].
    + intros H. injection H as <- _. exists audio. auto.
    + destruct (isinstance e3 sr_UnknownValueError);
        [cbn [emit print]; discriminate|].
      destruct (isinstance e3 sr_RequestError);
        cbn [emit print]; discriminate.
  - destruct (isinstance e2 sr_WaitTimeoutError);
      cbn [emit print trace files]; discriminate.
Qed.

Lemma capture_user_voice_sound_witness :
  exists audio,
    listen quiet_office = Returns audio /\
    recognize_google quiet_office audio default_language = Returns (u "hello").
Proof.
  exact (capture_user_voice_sound quiet_office default_language (u "hello")
           empty_world _ eq_refl).
Defined.

(** X9: a failure that is none of the three handled ones (calibration
    fails, listening fails with something else than the end of the wait,
    the recogniser fails with something else than the two recognition
    errors) reaches the caller, after the microphone has been released. *)
Theorem capture_user_voice_uncaught (sr : speech_library) (language : pystr)
  (e : exn) (w : world) :
  Microphone_enter sr = Returns tt ->
  uncaught_failure sr language e ->
  exists w',
    capture_user_voice sr language w = (Raises e, w') /\
    In MicrophoneClosed (trace w').
Proof.
  intros Hmic Hfail.
  unfold capture_user_voice, try_finally, try_except, bind, call.
  rewrite Hmic. cbn [emit print].
  destruct Hfail as [e Hadj | e Hadj Hl He | audio e Hadj Hl Hr He1 He2];
    rewrite Hadj; cbn [emit print ret trace files].
  - eexists. split; [reflexivity|]. cbn [trace].
    rewrite !in_app_iff. simpl. tauto.
  - rewrite Hl. cbn [find_handler]. rewrite He.
    cbn [emit print ret trace files].
    eexists. split; [reflexivity|]. cbn [trace].
    rewrite !in_app_iff. simpl. tauto.
  - rewrite Hl. cbn [emit print ret trace files]. rewrite Hr.
    cbn [find_handler]. rewrite He1, He2.
    eexists. split; [reflexivity|]. cbn [trace].
    rewrite !in_app_iff. simpl. tauto.
Qed.

Lemma capture_user_voice_uncaught_witness :
  uncaught_failure broken_recogniser default_language
    {| exc_type := ValueError; exc_str := u "bad response" |} /\
  exists w',
    capture_user_voice broken_recogniser default_language empty_world
      = (Raises {| exc_type := ValueError; exc_str := u "bad response" |}, w') /\
    In MicrophoneClosed (trace w').
Proof.
  assert (H : uncaught_failure broken_recogniser default_language
                {| exc_type := ValueError; exc_str := u "bad response" |})
    by (eapply recognition_failed; reflexivity).
  split; [exact H|].
  exact (capture_user_voice_uncaught broken_recogniser default_language _
           empty_world eq_refl H).
Defined.

(** X10: [capture_user_voice] never leaves the microphone open: whatever
    the library calls do, if the microphone was closed before the call it
    is closed after it. *)
Theorem capture_user_voice_releases_microphone (sr : speech_library)
  (language : pystr) (w : world) :
  microphone_open (trace w) = false ->
  microphone_open (trace (snd (capture_user_voice sr language w))) = false.
Proof.
  intros Hclosed.
  unfold capture_user_voice, try_finally, try_except, bind, call.
  destruct (Microphone_enter sr) as [[]|e0]; [|exact Hclosed].
  cbn [emit print].
  destruct (adjust_for_ambient_noise sr) as [[]|e1];
    cbn [emit print ret trace files snd];
    [|rewrite !microphone_open_app; reflexivity].
  destruct (listen sr) as [audio|e2];
    cbn [find_handler emit print ret trace files snd].
  - destruct (recognize_google sr audio language) as [t|e3];
      cbn [find_handler emit print ret trace files snd];
      [rewrite !microphone_open_app; reflexivity|].
    destruct (isinstance e3 sr_UnknownValueError);
      cbn [emit print ret trace files snd];
      [rewrite !microphone_open_app; reflexivity|].
    destruct (isinstance e3 sr_RequestError);
      cbn [emit print ret trace files snd];
      rewrite !microphone_open_app; reflexivity.
  - destruct (isinstance e2 sr_WaitTimeoutError);
      cbn [emit print ret trace files snd];
      rewrite !microphone_open_app; reflexivity.
Qed.

Lemma capture_user_voice_releases_microphone_witness :
  microphone_open (trace empty_world) = false /\
  microphone_open
    (trace (snd (capture_user_voice broken_recogniser default_language
                   empty_world))) = false.
Proof.
  split; [reflexivity|].
  exact (capture_user_voice_releases_microphone broken_recogniser
           default_language empty_world eq_refl).
Defined.

(** ** Speech synthesis and playback: the runs of [play_audio] *)

Lemma debug_line_run (text language : pystr) (debug : bool) (w : world) :
  (if debug
   then print (Msg_Speaking language (firstn 30 text) (30 <? length text)%nat)
   else ret tt) w
  = (Returns tt,
     {| trace := trace w ++ debug_line text language debug;
        files := files w |}).
Proof.
  destruct debug; cbn; [reflexivity|].
  rewrite app_nil_r. now destruct w.
Qed.

Lemma written_then_removed (fs : gset (list N)) (f : pystr) :
  (fs ∪ {[f]}) ∖ {[f]} = fs ∖ {[f]}.
Proof.
  apply set_eq. intros x.
  rewrite !elem_of_difference, elem_of_union. tauto.
Qed.

(** X11: a run on a POSIX system in which synthesis, writing and removal
    succeed: the file is written, the player [mpg123] is run on it, and
    the file is removed, in this order and with the two pauses; the exit
    status of the player plays no part. *)
Theorem play_audio_posix_run (p : platform) (text language f : pystr)
  (debug : bool) (w : world) :
  is_posix p = true ->
  name_temp_file p = Returns f ->
  gTTS p text language = Returns tt ->
  tts_save p f = Returns tt ->
  os_remove p f = Returns tt ->
  play_audio p text language debug w =
  (Returns tt,
   {| trace := trace w ++ debug_line text language debug ++
               [SaveCalled f; Sleep 500; Command (u "mpg123 -q " ++ f);
                Sleep 1000; RemoveCalled f];
      files := files w ∖ {[f]} |}).
Proof.
  intros Hposix Hname Hsyn Hsave Hrm.
  pose proof (name_temp_file_nonempty p f Hname) as Hf.
  unfold play_audio. unfold bind at 1. rewrite debug_line_run, Hname.
  unfold try_finally, try_except, bind, call, save_file, sleep, emit, ret.
  rewrite Hsyn. cbn [trace files]. rewrite Hsave, Hposix.
  cbn [trace files clean_up]. rewrite Hf.
  unfold bind, os_path_exists, try_except, sleep, emit, remove_file.
  cbn [trace files].
  rewrite bool_decide_eq_true_2
    by (apply elem_of_union_r, elem_of_singleton; reflexivity).
  rewrite Hrm. f_equal. f_equal; cbn [trace files].
  - rewrite <- !app_assoc. reflexivity.
  - apply written_then_removed.
Qed.

Lemma play_audio_posix_run_witness :
  play_audio linux_machine (u "Hola") (u "es") false empty_world =
  (Returns tt,
   {| trace := [] ++ [] ++
               [SaveCalled (u "/tmp/speech_1700000000.mp3"); Sleep 500;
                Command (u "mpg123 -q " ++ u "/tmp/speech_1700000000.mp3");
                Sleep 1000; RemoveCalled (u "/tmp/speech_1700000000.mp3")];
      files := ∅ ∖ {[u "/tmp/speech_1700000000.mp3"]} |}).
Proof.
  exact (play_audio_posix_run linux_machine (u "Hola") (u "es")
           (u "/tmp/speech_1700000000.mp3") false empty_world
           eq_refl eq_refl eq_refl eq_refl eq_refl).
Defined.

(** X12: when the synthesiser fails with an error, nothing is written and
    no player is started: one diagnostic is printed, and the files are as
    they were. *)
Theorem play_audio_synthesis_failure (p : platform) (text language f : pystr)
  (debug : bool) (e : exn) (w : world) :
  name_temp_file p = Returns f ->
  gTTS p text language = Raises e ->
  isinstance e Exception = true ->
  f ∉ files w ->
  play_audio p text language debug w =
  (Returns tt,
   {| trace := trace w ++ debug_line text language debug ++
               [Print (Msg_AudioError e)];
      files := files w |}).
Proof.
  intros Hname Hsyn He Hout.
  pose proof (name_temp_file_nonempty p f Hname) as Hf.
  unfold play_audio. unfold bind at 1. rewrite debug_line_run, Hname.
  unfold try_finally, try_except, bind, call.
  rewrite Hsyn. cbn [find_handler]. rewrite He.
  unfold print, emit. cbn [trace files clean_up]. rewrite Hf.
  unfold bind, os_path_exists. cbn [trace files].
  rewrite bool_decide_eq_false_2 by exact Hout.
  unfold ret. rewrite <- !app_assoc. reflexivity.
Qed.

Lemma play_audio_synthesis_failure_witness :
  play_audio offline_machine (u "Hola") (u "es") false empty_world =
  (Returns tt,
   {| trace := [] ++ [] ++
               [Print (Msg_AudioError {| exc_type := gTTSError;
                                         exc_str := u "Failed to connect" |})];
      files := ∅ |}).
Proof.
  apply (play_audio_synthesis_failure offline_machine (u "Hola") (u "es")
           (u "/tmp/speech_1700000000.mp3") false
           {| exc_type := gTTSError; exc_str := u "Failed to connect" |}
           empty_world);
    [reflexivity | reflexivity | reflexivity | apply not_elem_of_empty].
Defined.

(** X13: on a system that is not POSIX, when pygame cannot be imported the
    error is printed and the file is played with playsound instead; it is
    removed afterwards all the same. *)
Theorem play_audio_falls_back_to_playsound (p : platform)
  (text language f : pystr) (debug : bool) (e : exn) (w : world) :
  is_posix p = false ->
  name_temp_file p = Returns f ->
  gTTS p text language = Returns tt ->
  tts_save p f = Returns tt ->
  import_pygame p = Raises e ->
  isinstance e Exception = true ->
  import_playsound p = Returns tt ->
  playsound p f = Returns tt ->
  os_remove p f = Returns tt ->
  play_audio p text language debug w =
  (Returns tt,
   {| trace := trace w ++ debug_line text language debug ++
               [SaveCalled f; Sleep 500; Print (Msg_PygameError e);
                Playsound f; Sleep 1000; RemoveCalled f];
      files := files w ∖ {[f]} |}).
Proof.
  intros Hposix Hname Hsyn Hsave Hpygame He Himport Hplay Hrm.
  pose proof (name_temp_file_nonempty p f Hname) as Hf.
  unfold play_audio. unfold bind at 1. rewrite debug_line_run, Hname.
  unfold try_finally, try_except, bind, call, save_file, sleep, emit, ret.
  rewrite Hsyn. cbn [trace files]. rewrite Hsave, Hposix.
  unfold play_with_pygame, try_except, bind, call.
  rewrite Hpygame. cbn [find_handler]. rewrite He.
  unfold print, emit. cbn [trace files]. rewrite Himport.
  cbn [trace files]. rewrite Hplay.
  cbn [trace files clean_up]. rewrite Hf.
  unfold bind, os_path_exists, try_except, sleep, emit, remove_file.
  cbn [trace files].
  rewrite bool_decide_eq_true_2
    by (apply elem_of_union_r, elem_of_singleton; reflexivity).
  rewrite Hrm. f_equal. f_equal; cbn [trace files].
  - rewrite <- !app_assoc. reflexivity.
  - apply written_then_removed.
Qed.

Lemma play_audio_falls_back_to_playsound_witness :
  play_audio windows_machine (u "Hola") (u "es") false empty_world =
  (Returns tt,
   {| trace := [] ++ [] ++
               [SaveCalled (u "C:\Temp\speech_1700000000.mp3"); Sleep 500;
                Print (Msg_PygameError
                         {| exc_type := ImportError;
                            exc_str := u "No module named 'pygame'" |});
                Playsound (u "C:\Temp\speech_1700000000.mp3");
                Sleep 1000;
                RemoveCalled (u "C:\Temp\speech_1700000000.mp3")];
      files := ∅ ∖ {[u "C:\Temp\speech_1700000000.mp3"]} |}).
Proof.
  exact (play_audio_falls_back_to_playsound windows_machine (u "Hola")
           (u "es") (u "C:\Temp\speech_1700000000.mp3") false
           {| exc_type := ImportError;
              exc_str := u "No module named 'pygame'" |}
           empty_world eq_refl eq_refl eq_refl eq_refl eq_refl eq_refl
           eq_refl eq_refl eq_refl).
Defined.

(** X14: when [os.remove] works, no file of the transient name is left
    after the call, whatever else failed: also a file of that name that
    was there before the call is removed. *)
Theorem play_audio_leaves_no_file (p : platform) (text language f : pystr)
  (debug : bool) (w : world) :
  failures_are_errors p ->
  name_temp_file p = Returns f ->
  os_remove p f = Returns tt ->
  f ∉ files (snd (play_audio p text language debug w)).
Proof.
  intros E Hname Hrm.
  unfold play_audio. unfold bind at 1. rewrite debug_line_run, Hname.
  unfold try_finally.
  pose proof (never_raises_synthesis_and_playback p text language E
                {| trace := trace w ++ debug_line text language debug;
                   files := files w |})
    as ([] & w1 & evs1 & Hrun1 & _).
  rewrite Hname in Hrun1. rewrite Hrun1.
  destruct (clean_up_removes p f w1 (name_temp_file_nonempty p f Hname)
              (os_remove_error p E f))
    as (w2 & Hrun2 & Hcases).
  rewrite Hrun2. cbn [snd].
  destruct Hcases as [(_ & Hout & _) | [(e & Hfail & _) | (Hout & _)]];
    [exact Hout | congruence | exact Hout].
Qed.

Lemma play_audio_leaves_no_file_witness :
  u "/tmp/speech_1700000000.mp3" ∉
  files (snd (play_audio offline_machine (u "Hola") (u "es") true
                {| trace := [];
                   files := {[u "/tmp/speech_1700000000.mp3"]} |})).
Proof.
  apply (play_audio_leaves_no_file offline_machine (u "Hola") (u "es")
           (u "/tmp/speech_1700000000.mp3") true);
    [|reflexivity|reflexivity].
  constructor; intros; try exact I; try reflexivity. constructor.
Defined.

(** ** Speech synthesis and playback: the files and the polling loop *)

Section OtherFiles.

Context {A B : Type} (f : pystr).

Lemma keeps_ret (a : A) : keeps_other_files f (ret a).
Proof. intros w g _. reflexivity. Qed.

Lemma keeps_call (o : outcome A) : keeps_other_files f (call o).
Proof. intros w g _. reflexivity. Qed.

Lemma keeps_bind (m : M A) (k : A -> M B) :
  keeps_other_files f m -> (forall a, keeps_other_files f (k a)) ->
  keeps_other_files f (bind m k).
Proof.
  intros Hm Hk w g Hg. unfold bind.
  specialize (Hm w g Hg).
  destruct (m w) as [[a|e] w1]; cbn [snd] in *; [|exact Hm].
  rewrite (Hk a w1 g Hg). exact Hm.
Qed.

Lemma keeps_try_except (m : M A) (hs : list (exc_class * (exn -> M A))) :
  keeps_other_files f m ->
  Forall (fun ch => forall e, keeps_other_files f (snd ch e)) hs ->
  keeps_other_files f (try_except m hs).
Proof.
  intros Hm Hhs w g Hg. unfold try_except.
  specialize (Hm w g Hg).
  destruct (m w) as [[a|e] w1]; cbn [snd] in *; [exact Hm|].
  assert (Hfound : forall h, find_handler e hs = Some h ->
                             forall e', keeps_other_files f (h e')).
  { clear Hm. induction Hhs as [|[c h0] hs Hh _ IH]; intros h; cbn [find_handler].
    - discriminate.
    - destruct (isinstance e c); [|exact (IH h)].
      intros [= <-]. exact Hh. }
  destruct (find_handler e hs) as [h|]; [|exact Hm].
  rewrite (Hfound h eq_refl e w1 g Hg). exact Hm.
Qed.

Lemma keeps_try_finally (m : M A) (fin : M unit) :
  keeps_other_files f m -> keeps_other_files f fin ->
  keeps_other_files f (try_finally m fin).
Proof.
  intros Hm Hfin w g Hg. unfold try_finally.
  specialize (Hm w g Hg).
  destruct (m w) as [r w1]. cbn [snd] in Hm.
  specialize (Hfin w1 g Hg).
  destruct (fin w1) as [[[]|e] w2]; cbn [snd] in *; now rewrite Hfin.
Qed.

End OtherFiles.

Lemma keeps_emit (f : pystr) (ev : event) : keeps_other_files f (emit ev).
Proof. intros w g _. reflexivity. Qed.

Lemma keeps_save_file (p : platform) (f : pystr) :
  keeps_other_files f (save_file p f).
Proof.
  intros w g Hg. unfold save_file.
  destruct (tts_save p f); [|destruct (save_leaves_partial_file p)];
    cbn [snd files]; rewrite ?elem_of_union, ?elem_of_singleton; tauto.
Qed.

Lemma keeps_remove_file (p : platform) (f : pystr) :
  keeps_other_files f (remove_file p f).
Proof.
  intros w g Hg. unfold remove_file.
  destruct (os_remove p f); cbn [snd files];
    rewrite ?elem_of_difference, ?elem_of_singleton; tauto.
Qed.

Lemma keeps_wait_while_busy (f : pystr) (answers : list (outcome bool)) :
  keeps_other_files f (wait_while_busy answers).
Proof.
  induction answers as [|a rest IH]; cbn [wait_while_busy].
  - apply keeps_ret.
  - apply keeps_bind; [apply keeps_call|].
    intros [|]; [|apply keeps_ret].
    apply keeps_bind; [apply keeps_emit | intros _; exact IH].
Qed.

Lemma keeps_play_with_pygame (p : platform) (f : pystr) :
  keeps_other_files f (play_with_pygame p f).
Proof.
  unfold play_with_pygame.
  apply keeps_try_except.
  - repeat (apply keeps_bind; [|intros ?]);
      try apply keeps_call; try apply keeps_emit.
    apply keeps_wait_while_busy.
  - constructor; [|constructor]. intros e. cbn [snd].
    apply keeps_bind; [apply keeps_emit | intros _].
    apply keeps_try_except.
    + repeat (apply keeps_bind; [|intros ?]);
        try apply keeps_call; apply keeps_emit.
    + constructor; [|constructor]. intros e'. apply keeps_emit.
Qed.

Lemma keeps_clean_up (p : platform) (f : pystr) :
  keeps_other_files f (clean_up p (Some f)).
Proof.
  unfold clean_up. destruct (str_truth f); [|apply keeps_ret].
  apply keeps_bind; [intros w g _; reflexivity|].
  intros [|]; [|apply keeps_ret].
  apply keeps_try_except.
  - apply keeps_bind; [apply keeps_emit | intros _; apply keeps_remove_file].
  - constructor; [|constructor]. intros e. apply keeps_emit.
Qed.

Lemma keeps_synthesis_and_playback (p : platform)
  (text language f : pystr) :
  keeps_other_files f
    (try_except
       (let* temp_filename := call (Returns f) in
        let* _ := call (gTTS p text language) in
        let* _ := save_file p temp_filename in
        let* _ := sleep 500 in
        if is_posix p then
          let* _ := emit (Command (u "mpg123 -q " ++ temp_filename)) in
          let* _ := ret (os_system p (u "mpg123 -q " ++ temp_filename)) in
          ret tt
        else play_with_pygame p temp_filename)
       [ (Exception, fun e => print (Msg_AudioError e)) ]).
Proof.
  apply keeps_try_except.
  - (* the name is the one computed before the block *)
    change (keeps_other_files f
              (let* _ := call (gTTS p text language) in
               let* _ := save_file p f in
               let* _ := sleep 500 in
               if is_posix p then
                 let* _ := emit (Command (u "mpg123 -q " ++ f)) in
                 let* _ := ret (os_system p (u "mpg123 -q " ++ f)) in
                 ret tt
               else play_with_pygame p f)).
    apply keeps_bind; [apply keeps_call | intros _].
    apply keeps_bind; [apply keeps_save_file | intros _].
    apply keeps_bind; [apply keeps_emit | intros _].
    destruct (is_posix p).
    + apply keeps_bind; [apply keeps_emit | intros _].
      apply keeps_bind; [apply keeps_ret | intros _].
      apply keeps_ret.
    + apply keeps_play_with_pygame.
  - constructor; [|constructor]. intros e. apply keeps_emit.
Qed.



(** X16: the polling loop sleeps a tenth of a second for each answer that
    the player is busy, ends at the first answer that it is idle, and asks
    no more after that. *)
Theorem wait_while_busy_polls (n : nat) (rest : list (outcome bool))
  (w : world) :
  wait_while_busy (List.repeat (Returns true) n ++ Returns false :: rest) w =
  (Returns tt,
   {| trace := trace w ++ List.repeat (Sleep 100) n; files := files w |}).
Proof.
  revert w. induction n as [|n IH]; intros w.
  - cbn. rewrite app_nil_r. now destruct w.
  - cbn [List.repeat app wait_while_busy]. unfold bind, call, sleep, emit.
    rewrite IH. cbn [trace files]. now rewrite <- app_assoc.
Qed.

(** A poll that raises ends the loop with that exception. *)
Lemma wait_while_busy_raises (n : nat) (e : exn) (rest : list (outcome bool))
  (w : world) :
  wait_while_busy (List.repeat (Returns true) n ++ Raises e :: rest) w =
  (Raises e,
   {| trace := trace w ++ List.repeat (Sleep 100) n; files := files w |}).
Proof.
  revert w. induction n as [|n IH]; intros w.
  - cbn. rewrite app_nil_r. now destruct w.
  - cbn [List.repeat app wait_while_busy]. unfold bind, call, sleep, emit.
    rewrite IH. cbn [trace files]. now rewrite <- app_assoc.
Qed.

(** ** The name of the transient file *)

Lemma u_injective (s t : string) : u s = u t -> s = t.
Proof.
  unfold u. intros H.
  assert (Hl : list_ascii_of_string s = list_ascii_of_string t).
  { revert H. generalize (list_ascii_of_string s) (list_ascii_of_string t).
    induction l as [|a l IH]; intros [|b l'] H; try discriminate; [reflexivity|].
    cbn in H. injection H as Hab Hl.
    f_equal; [|now apply IH].
    rewrite <- (ascii_N_embedding a), <- (ascii_N_embedding b). now rewrite Hab. }
  rewrite <- (string_of_list_ascii_of_string s),
    <- (string_of_list_ascii_of_string t).
  now rewrite Hl.
Qed.

Lemma decimal_injective (a b : Z) : decimal a = decimal b -> a = b.
Proof.
  unfold decimal. intros H. apply u_injective in H.
  assert (Hnz : forall z, Z.to_int z <> Decimal.Pos Decimal.Nil /\
                          Z.to_int z <> Decimal.Neg Decimal.Nil).
  { intros [|q|q]; cbn; split; try discriminate;
      intros E; injection E as E;
      now apply DecimalPos.Unsigned.to_uint_nonnil in E. }
  assert (Hint : Z.to_int a = Z.to_int b).
  { destruct (Hnz a) as [Ha1 Ha2]. destruct (Hnz b) as [Hb1 Hb2].
    pose proof (NilZero.isi _ Ha1 Ha2) as Ia.
    pose proof (NilZero.isi _ Hb1 Hb2) as Ib.
    rewrite H in Ia. rewrite Ia in Ib. now injection Ib. }
  rewrite <- (DecimalZ.of_to a), <- (DecimalZ.of_to b). now rewrite Hint.
Qed.

(** X17: on one machine (the same system and the same directory for
    temporary files), two calls get the same file name exactly when they
    are made within the same second. *)
Theorem name_temp_file_same_second (p1 p2 : platform) (temp_dir f1 f2 : pystr) :
  os_name p1 = os_name p2 ->
  gettempdir p1 = Returns temp_dir ->
  gettempdir p2 = Returns temp_dir ->
  name_temp_file p1 = Returns f1 ->
  name_temp_file p2 = Returns f2 ->
  (f1 = f2 <-> time_time p1 = time_time p2).
Proof.
  intros Hos H1 H2. unfold name_temp_file. rewrite H1, H2.
  intros [= <-] [= <-].
  assert (Hjoin : forall b,
            os_path_join p2 temp_dir b = os_path_join p1 temp_dir b).
  { intros b. unfold os_path_join, is_posix. now rewrite Hos. }
  split.
  - rewrite Hjoin. unfold os_path_join.
    intros H.
    assert (Htail : u "speech_" ++ decimal (time_time p1) ++ u ".mp3" =
                    u "speech_" ++ decimal (time_time p2) ++ u ".mp3").
    { destruct (is_posix p1);
        match type of H with
        | (if ?c then _ else _) = _ => destruct c
        end;
        rewrite <- ?app_assoc in H;
        repeat (apply app_inv_head in H); exact H. }
    apply app_inv_head, app_inv_tail in Htail.
    now apply decimal_injective.
  - intros ->. now rewrite Hjoin.
Qed.

Lemma name_temp_file_same_second_witness :
  u "/tmp/speech_1700000000.mp3" = u "/tmp/speech_1700000000.mp3" <->
  time_time linux_machine = time_time offline_machine.
Proof.
  exact (name_temp_file_same_second linux_machine offline_machine
           (u "/tmp") _ _ eq_refl eq_refl eq_refl eq_refl eq_refl).
Defined.

(** ** Threads: results, failures and several invocations *)

Section MoreThreadFacts.

Context {Arg Val : Type}.
Implicit Types (s : process Val) (st : thread_state Val) (t : nat).

Lemma calls_of_unused s t :
  fresh_idents s -> next_ident s <= t -> calls_of t s = [].
Proof.
  intros [_ Hcalls] Ht. unfold calls_of.
  induction (callback_calls s) as [|[t' v] l IH]; [reflexivity|].
  cbn [List.filter fst].
  destruct (Nat.eqb_spec t' t) as [->|_].
  - specialize (Hcalls t v (or_introl eq_refl)). lia.
  - apply IH. intros t'' v' Hin. apply (Hcalls t'' v'). now right.
Qed.

Lemma thread_run_without_callback (k : nat) (b : behaviour Val) :
  snd (thread_run k (InFunc b None)) = [].
Proof.
  revert b. induction k as [|k IH]; intros b; [reflexivity|].
  cbn [thread_run].
  destruct b as [[|n] [v|e] |]; cbn [thread_step].
  - pose proof (thread_run_after_call k (@Finished Val) I) as H.
    destruct (thread_run k Finished); exact H.
  - pose proof (thread_run_after_call k (@Died Val e) I) as H.
    destruct (thread_run k (Died e)); exact H.
  - specialize (IH (Finishes _ n (Returns v))).
    destruct (thread_run k _); exact IH.
  - specialize (IH (Finishes _ n (Raises e))).
    destruct (thread_run k _); exact IH.
  - specialize (IH (Diverges _)).
    destruct (thread_run k _); exact IH.
Qed.

Lemma thread_run_raising (k n : nat) (e : exn)
  (cb : option (Val -> behaviour unit)) :
  fst (thread_run k (InFunc (Finishes _ n (Raises e)) cb)) =
  if (n <? k)%nat then Died e
  else InFunc (Finishes _ (n - k) (Raises e)) cb.
Proof.
  revert k. induction n as [|n IH]; intros [|k]; try reflexivity.
  - cbn [thread_run thread_step].
    assert (H : forall j, fst (thread_run j (@Died Val e)) = Died e).
    { induction j as [|j IHj]; [reflexivity|].
      cbn [thread_run thread_step].
      destruct (thread_run j (Died e)); exact IHj. }
    specialize (H k). destruct (thread_run k (Died e)). exact H.
  - cbn [thread_run thread_step]. specialize (IH k).
    destruct (thread_run k _) as [st calls]. cbn [fst] in *.
    exact IH.
Qed.

(** X18: without a callback the result of the function is discarded: the
    thread calls no callback, whatever the function returns and however
    the threads are scheduled. *)
Theorem run_in_thread_discards_result (func : Arg -> behaviour Val)
  (args : Arg) s (order : list nat) :
  fresh_idents s ->
  calls_of (next_ident s) (run order (snd (run_in_thread None func args s)))
  = [].
Proof.
  intros Hfresh. rewrite run_in_thread_starts. cbn [snd].
  assert (Hst : threads (Thread_start (InFunc (func args) None) s)
                  !! next_ident s
                = Some (InFunc (func args) None))
    by apply lookup_insert_eq.
  destruct (run_thread (next_ident s) order _ _ Hst) as [_ Hcalls].
  rewrite Hcalls, thread_run_without_callback, app_nil_r.
  exact (calls_of_fresh s Hfresh).
Qed.

(** X19: the callback is called when the function has returned and not
    before: after [k] steps of the new thread it has been called, once
    and with the value returned, exactly if [k] is more than the number
    of steps the function takes. *)
Theorem run_in_thread_callback_timing (cb : Val -> behaviour unit)
  (func : Arg -> behaviour Val) (args : Arg) (n : nat) (v : Val)
  s (order : list nat) :
  fresh_idents s ->
  func args = Finishes _ n (Returns v) ->
  calls_of (next_ident s)
    (run order (snd (run_in_thread (Some cb) func args s)))
  = if (n <? count_occ Nat.eq_dec order (next_ident s))%nat then [v] else [].
Proof.
  intros Hfresh Hret. rewrite run_in_thread_starts. cbn [snd].
  assert (Hst : threads (Thread_start (InFunc (func args) (Some cb)) s)
                  !! next_ident s
                = Some (InFunc (func args) (Some cb)))
    by apply lookup_insert_eq.
  destruct (run_thread (next_ident s) order _ _ Hst) as [_ Hcalls].
  rewrite Hcalls, Hret, thread_run_returning.
  assert (Hnone : calls_of (next_ident s)
                    (Thread_start (InFunc (Finishes Val n (Returns v)) (Some cb)) s)
                  = [])
    by (exact (calls_of_fresh s Hfresh)).
  rewrite Hnone. reflexivity.
Qed.

(** X20: an exception of the function stays on the thread: the wrapper
    has returned [None] long before, the thread ends with the exception,
    and the callback is not called. *)
Theorem run_in_thread_exception_stays (callback : option (Val -> behaviour unit))
  (func : Arg -> behaviour Val) (args : Arg) (n : nat) (e : exn)
  s (order : list nat) :
  fresh_idents s ->
  func args = Finishes _ n (Raises e) ->
  n < count_occ Nat.eq_dec order (next_ident s) ->
  fst (run_in_thread callback func args s) = None /\
  threads (run order (snd (run_in_thread callback func args s)))
    !! next_ident s = Some (Died e) /\
  calls_of (next_ident s)
    (run order (snd (run_in_thread callback func args s))) = [].
Proof.
  intros Hfresh Hraise Hsteps. rewrite run_in_thread_starts. cbn [fst snd].
  split; [reflexivity|].
  assert (Hst : threads (Thread_start (InFunc (func args) callback) s)
                  !! next_ident s
                = Some (InFunc (func args) callback))
    by apply lookup_insert_eq.
  destruct (run_thread (next_ident s) order _ _ Hst) as [Hstate Hcalls].
  split.
  - rewrite Hstate, Hraise, thread_run_raising.
    apply Nat.ltb_lt in Hsteps. now rewrite Hsteps.
  - rewrite Hcalls, thread_run_not_returning, app_nil_r.
    + exact (calls_of_fresh s Hfresh).
    + rewrite Hraise. intros n' v' H. discriminate H.
Qed.

(** Starting a thread and letting threads run keep the thread
    identifiers in order: those from [next_ident] on stay unused. *)
Lemma fresh_idents_preserved (callback : option (Val -> behaviour unit))
  (func : Arg -> behaviour Val) (args : Arg) s (order : list nat) :
  fresh_idents s ->
  fresh_idents (snd (run_in_thread callback func args s)) /\
  fresh_idents (run order s).
Proof.
  intros Hfresh. split.
  - rewrite run_in_thread_starts. cbn [snd].
    destruct Hfresh as [Hthreads Hcalls]. split; cbn.
    + intros t Ht. rewrite lookup_insert_ne by lia. apply Hthreads. lia.
    + intros t v Hin. specialize (Hcalls t v Hin). lia.
  - revert s Hfresh. induction order as [|t order IH]; intros s Hfresh;
      [exact Hfresh|].
    cbn [run List.fold_left]. apply IH.
    destruct Hfresh as [Hthreads Hcalls]. unfold schedule.
    destruct (threads s !! t) as [st|] eqn:Hst; [|split; assumption].
    assert (Ht : t < next_ident s).
    { destruct (Nat.lt_ge_cases t (next_ident s)) as [H|H]; [exact H|].
      rewrite (Hthreads t H) in Hst. discriminate. }
    destruct (thread_step st) as [st' called]. split; cbn.
    + intros t' Ht'. rewrite lookup_insert_ne by lia. now apply Hthreads.
    + intros t' v Hin. destruct called as [v0|]; [|now apply (Hcalls t' v)].
      apply in_app_iff in Hin. destruct Hin as [Hin | [[= <- <-] | []]];
        [now apply (Hcalls t' v) | exact Ht].
Qed.


End MoreThreadFacts.

Lemma run_in_thread_no_result_witness :
  fresh_idents idle_process /\
  calls_of 1
    (run [1; 1; 1; 1] (snd (run_in_thread (Some notify) failing 5 idle_process)))
  = [].
Proof.
  split; [exact idle_process_fresh|].
  apply (run_in_thread_no_result (Some notify) failing 5 idle_process
           [1; 1; 1; 1] idle_process_fresh).
  intros n v H. discriminate H.
Defined.

Lemma run_in_thread_discards_result_witness :
  calls_of 1
    (run [1; 1; 1; 1] (snd (run_in_thread None successor 5 idle_process)))
  = [].
Proof.
  exact (run_in_thread_discards_result successor 5 idle_process [1; 1; 1; 1]
           idle_process_fresh).
Defined.

Lemma run_in_thread_callback_timing_witness :
  calls_of 1
    (run [1; 1] (snd (run_in_thread (Some notify) successor 5 idle_process)))
  = [] /\
  calls_of 1
    (run [1; 1; 1] (snd (run_in_thread (Some notify) successor 5 idle_process)))
  = [6].
Proof.
  split.
  - exact (run_in_thread_callback_timing notify successor 5 2 6 idle_process
             [1; 1] idle_process_fresh eq_refl).
  - exact (run_in_thread_callback_timing notify successor 5 2 6 idle_process
             [1; 1; 1] idle_process_fresh eq_refl).
Defined.

Lemma run_in_thread_exception_stays_witness :
  fst (run_in_thread (Some notify) failing 5 idle_process) = None /\
  threads (run [1; 1] (snd (run_in_thread (Some notify) failing 5 idle_process)))
    !! 1 = Some (Died {| exc_type := ValueError; exc_str := u "no" |}) /\
  calls_of 1
    (run [1; 1] (snd (run_in_thread (Some notify) failing 5 idle_process)))
  = [].
Proof.
  apply (run_in_thread_exception_stays (Some notify) failing 5 1
           {| exc_type := ValueError; exc_str := u "no" |}
           idle_process [1; 1] idle_process_fresh eq_refl).
  cbn. lia.
Defined.

Lemma fresh_idents_preserved_witness :
  fresh_idents (snd (run_in_thread (Some notify) successor 5 idle_process)) /\
  fresh_idents (run [1; 0; 1] idle_process).
Proof.
  exact (fresh_idents_preserved (Some notify) successor 5 idle_process
           [1; 0; 1] idle_process_fresh).
Defined.


(** ** Threads: the callback as an object *)

Section CallbackObjects.

Context {Arg Val : Type}.

(** The calls a newly started thread makes are those of its own steps. *)
Lemma calls_of_started (target : thread_state Val) (s : process Val)
  (order : list nat) :
  fresh_idents s ->
  calls_of (next_ident s) (run order (Thread_start target s)) =
  snd (thread_run (count_occ Nat.eq_dec order (next_ident s)) target).
Proof.
  intros Hfresh.
  assert (Hst : threads (Thread_start target s) !! next_ident s = Some target)
    by apply lookup_insert_eq.
  destruct (run_thread (next_ident s) order _ _ Hst) as [_ Hcalls].
  rewrite Hcalls.
  assert (Hnone : calls_of (next_ident s) (Thread_start target s) = [])
    by (exact (calls_of_fresh s Hfresh)).
  now rewrite Hnone.
Qed.

Lemma run_in_thread_with_starts (callback : option (callable Val))
  (func : Arg -> behaviour Val) (args : Arg) (s : process Val) :
  exists target,
    run_in_thread_with callback func args s =
      (None, Thread_start (InFunc (func args) target) s) /\
    target = match callback with
             | Some c => if truth_value c then Some (on_call c) else None
             | None => None
             end.
Proof.
  unfold run_in_thread_with.
  destruct callback as [c|]; [destruct (truth_value c)|];
    rewrite run_in_thread_starts; eexists; split; reflexivity.
Qed.


End CallbackObjects.



(** ** Text normalisation on Spanish text *)

Lemma filter_flat_map {X Y : Type} (keep : Y -> bool) (g : X -> list Y)
  (l : list X) :
  List.filter keep (List.flat_map g l) =
  List.flat_map (fun x => List.filter keep (g x)) l.
Proof.
  induction l as [|x l IH]; [reflexivity|].
  cbn [List.flat_map]. now rewrite List.filter_app, IH.
Qed.

Lemma flat_map_flat_map {X Y Z : Type} (g : Y -> list Z) (h : X -> list Y)
  (l : list X) :
  List.flat_map g (List.flat_map h l) =
  List.flat_map (fun x => List.flat_map g (h x)) l.
Proof.
  induction l as [|x l IH]; [reflexivity|].
  cbn [List.flat_map]. now rewrite List.flat_map_app, IH.
Qed.

(** On the excerpt the result is made character by character. *)
Lemma normalize_text_by_character (s : pystr) :
  normalize_text UCD.library (Some s) =
  Some (List.flat_map normalized_character s).
Proof.
  rewrite normalize_text_UCD. f_equal.
  rewrite flat_map_flat_map, filter_flat_map. reflexivity.
Qed.

(** A property of the Spanish characters can be checked on each of them. *)
Lemma spanish_character_cases (P : codepoint -> bool) :
  forallb P
    (List.map N.of_nat (List.seq 0 128) ++
     [161; 191; 193; 201; 205; 209; 211; 218; 220;
      225; 233; 237; 241; 243; 250; 252; 769; 771; 776]%N) = true ->
  forall c, spanish_character c = true -> P c = true.
Proof.
  intros Hall c Hc.
  rewrite forallb_forall in Hall. apply Hall.
  apply in_app_iff. unfold spanish_character in Hc.
  apply orb_true_iff in Hc. destruct Hc as [Hc|Hc].
  - left. apply N.ltb_lt in Hc.
    rewrite <- (N2Nat.id c). apply List.in_map, List.in_seq. lia.
  - right. apply List.existsb_exists in Hc. destruct Hc as (d & Hd & Hcd).
    apply N.eqb_eq in Hcd. now subst d.
Qed.

Lemma flat_map_spanish {Y : Type} (g h : codepoint -> list Y) (s : pystr) :
  (forall c, spanish_character c = true -> g c = h c) ->
  spanish_text s ->
  List.flat_map g s = List.flat_map h s.
Proof.
  intros Hgh. unfold spanish_text.
  induction s as [|c s IH]; [reflexivity|].
  cbn [forallb List.flat_map]. intros H. apply andb_true_iff in H.
  destruct H as [Hc Hs]. now rewrite (Hgh c Hc), (IH Hs).
Qed.

(** X23: on Spanish text (ASCII, the accented letters, the inverted
    marks) [normalize_text] is idempotent. *)
Theorem normalize_text_idempotent_on_spanish (s : pystr) :
  spanish_text s ->
  normalize_text UCD.library (normalize_text UCD.library (Some s)) =
  normalize_text UCD.library (Some s).
Proof.
  intros Hs. rewrite !normalize_text_by_character. f_equal.
  rewrite flat_map_flat_map.
  apply flat_map_spanish; [|exact Hs].
  intros c Hc.
  assert (H : forall c, spanish_character c = true ->
                pystr_eqb (List.flat_map normalized_character
                             (normalized_character c))
                          (normalized_character c) = true)
    by (apply spanish_character_cases; vm_compute; reflexivity).
  exact (proj1 (bool_decide_eq_true _) (H c Hc)).
Qed.

Lemma normalize_text_idempotent_on_spanish_witness :
  spanish_text ([191%N] ++ u "C" ++ [243%N] ++ u "mo est" ++ [225%N] ++ u "s?") /\
  normalize_text UCD.library
    (normalize_text UCD.library
       (Some ([191%N] ++ u "C" ++ [243%N] ++ u "mo est" ++ [225%N] ++ u "s?")))
  = normalize_text UCD.library
      (Some ([191%N] ++ u "C" ++ [243%N] ++ u "mo est" ++ [225%N] ++ u "s?")).
Proof.
  split; [reflexivity|].
  exact (normalize_text_idempotent_on_spanish
           ([191%N] ++ u "C" ++ [243%N] ++ u "mo est" ++ [225%N] ++ u "s?")
           eq_refl).
Defined.

(** X24: on Spanish text the result does not depend on the case of the
    input: the text and its lower-case form normalise alike. *)
Theorem normalize_text_ignores_case (s : pystr) :
  spanish_text s ->
  normalize_text UCD.library (Some (UCD.lower s)) =
  normalize_text UCD.library (Some s).
Proof.
  intros Hs. rewrite !normalize_text_by_character. f_equal.
  unfold UCD.lower. rewrite flat_map_flat_map.
  apply flat_map_spanish; [|exact Hs].
  intros c Hc.
  assert (H : forall c, spanish_character c = true ->
                pystr_eqb (List.flat_map normalized_character (UCD.tolower c))
                          (normalized_character c) = true)
    by (apply spanish_character_cases; vm_compute; reflexivity).
  exact (proj1 (bool_decide_eq_true _) (H c Hc)).
Qed.

Lemma normalize_text_ignores_case_witness :
  spanish_text (u "CAF" ++ [201%N]) /\
  normalize_text UCD.library (Some (UCD.lower (u "CAF" ++ [201%N]))) =
  normalize_text UCD.library (Some (u "CAF" ++ [201%N])).
Proof.
  split; [reflexivity|].
  exact (normalize_text_ignores_case (u "CAF" ++ [201%N]) eq_refl).
Defined.

(** X25: on Spanish text the result has neither capital letters nor
    accents: every character of it is an ASCII character that is not a
    capital letter, or one of the two inverted marks. *)
Theorem normalize_text_plain_on_spanish (s : pystr) :
  spanish_text s ->
  exists out,
    normalize_text UCD.library (Some s) = Some out /\
    forallb plain_character out = true.
Proof.
  intros Hs. eexists. split; [apply normalize_text_by_character|].
  assert (H : forall c, spanish_character c = true ->
                forallb plain_character (normalized_character c) = true)
    by (apply spanish_character_cases; vm_compute; reflexivity).
  unfold spanish_text in Hs.
  induction s as [|c s IH]; [reflexivity|].
  cbn [forallb List.flat_map] in *. apply andb_true_iff in Hs.
  destruct Hs as [Hc Hs].
  rewrite forallb_app, (H c Hc), (IH Hs). reflexivity.
Qed.

Lemma normalize_text_plain_on_spanish_witness :
  spanish_text (u "Se" ++ [241%N] ++ u "or") /\
  exists out,
    normalize_text UCD.library (Some (u "Se" ++ [241%N] ++ u "or")) = Some out /\
    forallb plain_character out = true.
Proof.
  split; [reflexivity|].
  exact (normalize_text_plain_on_spanish (u "Se" ++ [241%N] ++ u "or") eq_refl).
Defined.

(** X26: on Spanish text, normalising a text piece by piece gives the
    same as normalising the whole: the result of a concatenation is the
    concatenation of the results. *)
Theorem normalize_text_concatenation (s1 s2 : pystr) :
  spanish_text s1 ->
  spanish_text s2 ->
  exists out1 out2,
    normalize_text UCD.library (Some s1) = Some out1 /\
    normalize_text UCD.library (Some s2) = Some out2 /\
    normalize_text UCD.library (Some (s1 ++ s2)) = Some (out1 ++ out2).
Proof.
  intros _ _. do 2 eexists.
  split; [apply normalize_text_by_character|].
  split; [apply normalize_text_by_character|].
  rewrite normalize_text_by_character. now rewrite List.flat_map_app.
Qed.

Lemma normalize_text_concatenation_witness :
  exists out1 out2,
    normalize_text UCD.library (Some (u "Caf" ++ [233%N])) = Some out1 /\
    normalize_text UCD.library (Some (u " Ol" ++ [233%N])) = Some out2 /\
    normalize_text UCD.library
      (Some ((u "Caf" ++ [233%N]) ++ (u " Ol" ++ [233%N])))
    = Some (out1 ++ out2).
Proof.
  exact (normalize_text_concatenation (u "Caf" ++ [233%N])
           (u " Ol" ++ [233%N]) eq_refl eq_refl).
Defined.

(** The witness of [normalize_text_fixed_point]: the result for the word
    [Café] is left alone by lowering and by decomposing. *)
Lemma normalize_text_fixed_point_witness :
  normalize_text UCD.library
    (normalize_text UCD.library (Some (u "Caf" ++ [233%N])))
  = normalize_text UCD.library (Some (u "Caf" ++ [233%N])).
Proof.
  exact (normalize_text_fixed_point UCD.library (u "Caf" ++ [233%N])
           (u "cafe") eq_refl eq_refl eq_refl).
Defined.
